(** * Churn-Retention-System: the scoring and streaming engine of server/index.js

    A shallow embedding of the server's pure core (feature extraction,
    logistic-regression training, scoring, windowed aggregation, alerts,
    dataset reload) together with the properties its specification states.

    Numbers.  A JavaScript number is modelled by [num]: [NaN], the two
    infinities, or a finite value carried as an exact rational.  The special
    values follow IEEE 754 / ECMAScript ([0/0 = NaN], [x/0 = ±Infinity],
    [Infinity - Infinity = NaN], every comparison with [NaN] is false, ...).
    An arithmetic result overflows to an infinity where binary64 does, from
    [2^1024 - 2^970] on in magnitude; below that it is carried exactly: the
    rounding of binary64 to 53 significant bits and the sign of zero are not
    represented.

    Strings.  A JavaScript string is a [string] of 8-bit code units.

    Built-ins whose result is implementation-approximated or whose grammar is
    outside the program ([Math.exp], [Math.sqrt] away from their special
    cases, [Number(string)], number-to-text conversion, the clock) are
    parameters of the development. *)

From Stdlib Require Import QArith Qround Qabs Qpower ZArith Lia Lqa.
From Stdlib Require Import String Ascii DecimalString List Sorting.Sorted Permutation.
From stdpp Require Import base option list gmap strings.

Local Open Scope Z_scope.

(** ** JavaScript numbers *)

Module JsNum.

Inductive num : Type :=
| NaN
| NInf
| Fin (q : Q)
| PInf.

Definition ofNat (n : nat) : num := Fin (inject_Z (Z.of_nat n)).

(** [Number.isFinite] *)
Definition isFinite (x : num) : bool :=
  match x with Fin _ => true | _ => false end.

(** ToBoolean on a number: [NaN] and zero are falsy. *)
Definition truthy (x : num) : bool :=
  match x with
  | NaN => false
  | Fin q => negb (Qeq_bool q 0)
  | _ => true
  end.

Definition Qltb (a b : Q) : bool := negb (Qle_bool b a).

Definition neg (x : num) : num :=
  match x with
  | NaN => NaN
  | NInf => PInf
  | PInf => NInf
  | Fin q => Fin (- q)
  end.

(** An infinity carrying the sign of [q] (zero counts as positive);
    [flip] reverses it. *)
Definition signedInf (flip : bool) (q : Q) : num :=
  if xorb flip (Qltb q 0) then NInf else PInf.

(** The least magnitude that binary64 rounds to an infinity: half an ulp
    above the largest finite double, [2^1024 - 2^970]. *)
Definition overflowAt : Q := inject_Z (2 ^ 1024 - 2 ^ 970).

(** The number an arithmetic operation yields for the exact result [q]:
    the infinity of its sign from the overflow threshold on, [q] below. *)
Definition fin (q : Q) : num :=
  if Qle_bool overflowAt (Qabs q) then signedInf false q else Fin q.

Arguments fin : simpl never.

Definition add (x y : num) : num :=
  match x, y with
  | NaN, _ | _, NaN => NaN
  | PInf, NInf | NInf, PInf => NaN
  | PInf, _ | _, PInf => PInf
  | NInf, _ | _, NInf => NInf
  | Fin a, Fin b => fin (a + b)
  end.

Definition sub (x y : num) : num := add x (neg y).

Definition mul (x y : num) : num :=
  match x, y with
  | NaN, _ | _, NaN => NaN
  | Fin a, Fin b => fin (a * b)
  | PInf, PInf | NInf, NInf => PInf
  | PInf, NInf | NInf, PInf => NInf
  | PInf, Fin q | Fin q, PInf => if Qeq_bool q 0 then NaN else signedInf false q
  | NInf, Fin q | Fin q, NInf => if Qeq_bool q 0 then NaN else signedInf true q
  end.

Definition div (x y : num) : num :=
  match x, y with
  | NaN, _ | _, NaN => NaN
  | Fin a, Fin b =>
      if Qeq_bool b 0
      then (if Qeq_bool a 0 then NaN else signedInf false a)
      else fin (a / b)
  | Fin _, _ => Fin 0
  | PInf, Fin q => signedInf false q
  | NInf, Fin q => signedInf true q
  | _, _ => NaN
  end.

(** [x ** 2] *)
Definition sqr (x : num) : num := mul x x.

(** [x < y]; false as soon as one side is [NaN]. *)
Definition ltb (x y : num) : bool :=
  match x, y with
  | NaN, _ | _, NaN => false
  | _, NInf => false
  | NInf, _ => true
  | PInf, _ => false
  | _, PInf => true
  | Fin a, Fin b => Qltb a b
  end.

(** [x <= y] *)
Definition leb (x y : num) : bool :=
  match x, y with
  | NaN, _ | _, NaN => false
  | NInf, _ => true
  | _, NInf => false
  | _, PInf => true
  | PInf, _ => false
  | Fin a, Fin b => Qle_bool a b
  end.

Definition gtb (x y : num) : bool := ltb y x.
Definition geb (x y : num) : bool := leb y x.

(** [x === y] on numbers. *)
Definition eqb (x y : num) : bool :=
  match x, y with
  | NInf, NInf | PInf, PInf => true
  | Fin a, Fin b => Qeq_bool a b
  | _, _ => false
  end.

(** [Math.max(x, y)] and [Math.min(x, y)]: [NaN] as soon as one argument is. *)
Definition max (x y : num) : num :=
  match x, y with
  | NaN, _ | _, NaN => NaN
  | _, _ => if ltb x y then y else x
  end.

Definition min (x y : num) : num :=
  match x, y with
  | NaN, _ | _, NaN => NaN
  | _, _ => if ltb y x then y else x
  end.

(** [Math.abs] *)
Definition abs (x : num) : num :=
  match x with
  | NaN => NaN
  | NInf | PInf => PInf
  | Fin q => Fin (Qabs q)
  end.

(** [Math.round]: the nearest integer, ties towards +Infinity. *)
Definition round (x : num) : num :=
  match x with
  | Fin q => Fin (inject_Z (Qfloor (q + (1 # 2))))
  | _ => x
  end.

(** [Number(x.toFixed(d))].  [toFixed] picks the integer [n] with [n / 10^d]
    closest to [|x|], the larger one on a tie, and keeps the sign; from
    [10^21] on, and on the non-finite values, the text is that of [x] itself,
    which [Number] reads back as [x]. *)
Definition pow10 (d : nat) : Z := 10 ^ Z.of_nat d.

Definition fixedDigits (d : nat) (q : Q) : Z :=
  Qfloor (Qabs q * inject_Z (pow10 d) + (1 # 2)).

Definition toFixed (d : nat) (x : num) : num :=
  match x with
  | Fin q =>
      if Qle_bool (inject_Z (10 ^ 21)) (Qabs q) then x
      else
        let n := fixedDigits d q in
        Fin (inject_Z (if Qltb q 0 then - n else n) / inject_Z (pow10 d))
  | _ => x
  end.

(** Equality up to the value of the rational, for reading results. *)
Definition same (x y : num) : bool :=
  match x, y with
  | NaN, NaN => true
  | _, _ => eqb x y
  end.

End JsNum.

Import JsNum.

Declare Scope num_scope.
Delimit Scope num_scope with num.
Bind Scope num_scope with num.
Infix "+" := add : num_scope.
Infix "-" := sub : num_scope.
Infix "*" := mul : num_scope.
Infix "/" := div : num_scope.
Infix "<?" := ltb : num_scope.
Infix "<=?" := leb : num_scope.
Infix ">?" := gtb : num_scope.
Infix ">=?" := geb : num_scope.

(** ** JavaScript strings *)

Module JsStr.

(** WhiteSpace and LineTerminator code units below 256. *)
Definition isWhite (c : ascii) : bool :=
  let n := nat_of_ascii c in
  ((9 <=? n)%nat && (n <=? 13)%nat) || (n =? 32)%nat || (n =? 160)%nat.

Fixpoint dropWhite (l : list ascii) : list ascii :=
  match l with
  | c :: r => if isWhite c then dropWhite r else l
  | [] => []
  end.

(** [String.prototype.trim] *)
Definition trim (s : string) : string :=
  string_of_list_ascii
    (rev (dropWhite (rev (dropWhite (list_ascii_of_string s))))).

Definition lowerChar (c : ascii) : ascii :=
  let n := nat_of_ascii c in
  if ((65 <=? n)%nat && (n <=? 90)%nat)
     || ((192 <=? n)%nat && (n <=? 222)%nat && negb (n =? 215)%nat)
  then ascii_of_nat (n + 32)
  else c.

(** [String.prototype.toLowerCase] *)
Definition toLowerCase (s : string) : string :=
  string_of_list_ascii (map lowerChar (list_ascii_of_string s)).

(** [String(v)] for a value that is a string or [undefined]. *)
Definition String_ (v : option string) : string :=
  match v with Some s => s | None => "undefined" end.

(** [v || d] for a value that is a string or [undefined]. *)
Definition orElse (v : option string) (d : string) : string :=
  match v with
  | Some s => if decide (s = EmptyString) then d else s
  | None => d
  end.

(** The decimal text of an array index or a length. *)
Definition ofNat (n : nat) : string :=
  NilZero.string_of_uint (Nat.to_uint n).

End JsStr.

Import JsStr.

(** [arr[j]] read inside arithmetic: out of range gives [undefined], which
    arithmetic turns into [NaN]. *)
Definition at_ (l : list num) (j : nat) : num := default NaN (l !! j).

(** ** Data model *)

Abbreviation RawRecord := (gmap string string).

Module FeatureDef.
Record t : Type := mk { key : string; name : string; type : string }.
End FeatureDef.

Module ModelRow.
Record t : Type := mk {
  id : string;
  state : string;
  platform : string;
  tier : string;
  actualChurn : num;
  minutes : num;
  serviceCalls : num;
  interactionPulse : num;
  raw : RawRecord
}.
End ModelRow.

Module TrainedModel.
Record t : Type := mk {
  weights : list num;
  bias : num;
  means : list num;
  stds : list num
}.
End TrainedModel.

Module Contribution.
Record t : Type := mk { feature : string; value : num; effect : num }.
End Contribution.

Module RiskDriver.
Record t : Type := mk { feature : string; direction : string; impact : num }.
End RiskDriver.

Module ScoredRow.
Record t : Type := mk {
  id : string;
  state : string;
  platform : string;
  tier : string;
  actualChurn : num;
  minutes : num;
  serviceCalls : num;
  interactionPulse : num;
  raw : RawRecord;
  churnRisk : num;
  bufferingRate : num;
  satisfaction : num;
  riskDrivers : list RiskDriver.t
}.
End ScoredRow.

Record ModelStats : Type := mkModelStats {
  threshold : num;
  accuracy : num;
  precision : num;
  recall : num;
  f1 : num
}.

Module PlatformMetric.
Record t : Type := mk {
  name : string;
  activeUsers : nat;
  avgRisk : num;
  serviceLoad : num;
  avgMinutes : num;
  satisfaction : num
}.
End PlatformMetric.

Module Bucket.
Record t : Type := mk {
  name : string;
  min : num;
  max : num;
  color : string;
  users : nat;
  share : num
}.
End Bucket.

Module Alert.
Record t : Type := mk {
  id : string;
  severity : string;
  title : string;
  message : string
}.
End Alert.

Record Kpis : Type := mkKpis {
  activeSessions : nat;
  avgChurnRisk : num;
  predictedChurners : nat;
  totalMinutes : num;
  avgServiceCalls : num
}.

Module TrendPoint.
Record t : Type := mk { time : string; risk : num; churners : nat; active : nat }.
End TrendPoint.

Module LivePulse.
Record t : Type := mk {
  id : string;
  platform : string;
  state : string;
  tier : string;
  interactionPulse : num;
  risk : num;
  bufferingRate : num;
  riskDrivers : list RiskDriver.t
}.
End LivePulse.

Module TopRisk.
Record t : Type := mk {
  id : string;
  platform : string;
  state : string;
  tier : string;
  risk : num;
  serviceCalls : num;
  interactionPulse : num;
  riskDrivers : list RiskDriver.t
}.
End TopRisk.

Module StreamCustomer.
Record t : Type := mk {
  id : string;
  platform : string;
  state : string;
  tier : string;
  risk : num;
  interactionPulse : num;
  serviceCalls : num;
  minutes : num;
  riskDrivers : list RiskDriver.t
}.
End StreamCustomer.

Record DatasetInfo : Type := mkDatasetInfo { path : string; rows : nat }.

(** The published snapshot, the global [state] of the source. *)
Module Snapshot.
Record t : Type := mk {
  kpis : Kpis;
  platformMetrics : list PlatformMetric.t;
  riskDistribution : list Bucket.t;
  trend : list TrendPoint.t;
  liveFeed : list LivePulse.t;
  topRiskCustomers : list TopRisk.t;
  alerts : list Alert.t;
  modelStats : option ModelStats;
  states : list string;
  platforms : list string;
  streamCustomers : list StreamCustomer.t;
  updateAt : string;
  datasetInfo : DatasetInfo
}.
End Snapshot.

(** The module-level variables of the source.  An entry of [streamWindow]
    is a scored row or [undefined] ([None]), which a read of
    [mappedRows[cursor]] past the end of the array puts there. *)
Record Server : Type := mkServer {
  state : Snapshot.t;
  mappedRows : list ScoredRow.t;
  model : option TrainedModel.t;
  currentDatasetPath : string;
  cursor : nat;
  streamWindow : list (option ScoredRow.t);
  trendWindow : list TrendPoint.t
}.

(** What the loader finds at an absolute path: a readable file with its
    text, or something that exists and cannot be read as a file. *)
Inductive FsEntry : Type :=
| RegularFile (content : string)
| Unreadable.

Abbreviation FileSystem := (string -> option FsEntry).

(** One reading of the clock by [refreshState]: the text of
    [toLocaleTimeString], of [getTime()] and of [toISOString()], and the
    readings of [Date.now()] made by [buildAlerts]. *)
Record Clock : Type := mkClock {
  localeTime : string;
  getTime : string;
  isoString : string;
  dateNow : nat -> string
}.

Definition platforms : list string :=
  ["Netflix"; "Prime Video"; "Disney+ Hotstar"; "Crunchyroll"; "Aha"]%string.

Definition featureDefs : list FeatureDef.t :=
  [ FeatureDef.mk "account length" "Account Tenure" "num";
    FeatureDef.mk "international plan" "International Plan" "boolYes";
    FeatureDef.mk "voice mail plan" "Voicemail Plan" "boolYes";
    FeatureDef.mk "number vmail messages" "Voicemail Usage" "num";
    FeatureDef.mk "total day minutes" "Day Usage" "num";
    FeatureDef.mk "total eve minutes" "Evening Usage" "num";
    FeatureDef.mk "total night minutes" "Night Usage" "num";
    FeatureDef.mk "total intl minutes" "International Usage" "num";
    FeatureDef.mk "customer service calls" "Service Calls" "num" ]%string.

(** [hashText]: every intermediate value stays below 2^53, so the double
    arithmetic of the source is exact integer arithmetic. *)
Definition hashText (text : string) : Z :=
  foldl (fun hash c => (hash * 31 + Z.of_nat (nat_of_ascii c)) mod 2147483647)
        0 (list_ascii_of_string text).

Section Engine.

(** [Number(s)] on a string. *)
Variable StringToNumber : string -> num.
(** The values of [Math.exp] and [Math.sqrt] on a finite, non-special
    argument; that of the exponential overflows like any other result. *)
Variable exp_approx : Q -> Q.
Variable sqrt_approx : Q -> Q.
(** The text of a number inside a template literal. *)
Variable showNum : num -> string.

Definition Math_exp (x : num) : num :=
  match x with
  | NaN => NaN
  | NInf => Fin 0
  | PInf => PInf
  | Fin q => if Qeq_bool q 0 then Fin 1 else fin (exp_approx q)
  end.

Definition Math_sqrt (x : num) : num :=
  match x with
  | NaN | NInf => NaN
  | PInf => PInf
  | Fin q =>
      if Qltb q 0 then NaN
      else if Qeq_bool q 0 then Fin 0
      else Fin (sqrt_approx q)
  end.

(** [Number(v)] for a value that is a string or [undefined]. *)
Definition Number_ (v : option string) : num :=
  match v with Some s => StringToNumber s | None => NaN end.

Definition toNum (value : option string) : num :=
  let n := Number_ value in
  if isFinite n then n else Fin 0.

Definition toBoolYes (value : option string) : num :=
  if decide (toLowerCase (trim (orElse value EmptyString)) = "yes"%string)
  then Fin 1 else Fin 0.

Definition sigmoid (x : num) : num :=
  (Fin 1 / (Fin 1 + Math_exp (neg x)))%num.

Definition clamp01 (value : num) : num :=
  max (Fin 0) (min (Fin 1) value).

Definition featureValue (row : RawRecord) (def : FeatureDef.t) : num :=
  if decide (FeatureDef.type def = "num"%string)
  then toNum (row !! FeatureDef.key def)
  else if decide (FeatureDef.type def = "boolYes"%string)
  then toBoolYes (row !! FeatureDef.key def)
  else Fin 0.

Definition featureVector (row : RawRecord) : list num :=
  map (featureValue row) featureDefs.

Definition toModelRow (row : RawRecord) (idx : nat) : ModelRow.t :=
  let stateCode := orElse (row !! "state"%string) "NA" in
  let areaCode := orElse (row !! "area code"%string) "000" in
  let h := hashText (stateCode +:+ "-" +:+ areaCode +:+ "-" +:+ JsStr.ofNat idx) in
  let platform :=
    default "undefined"%string
      (platforms !! Z.to_nat (h mod Z.of_nat (length platforms))) in
  let day := toNum (row !! "total day minutes"%string) in
  let eve := toNum (row !! "total eve minutes"%string) in
  let tier :=
    if (day + eve >? Fin 420)%num then "Premium"%string
    else if (day >? Fin 210)%num then "Standard"%string
    else "Mobile"%string in
  {| ModelRow.id :=
       orElse (row !! "phone number"%string) (stateCode +:+ "-" +:+ JsStr.ofNat idx);
     ModelRow.state := stateCode;
     ModelRow.platform := platform;
     ModelRow.tier := tier;
     ModelRow.actualChurn :=
       if decide (toLowerCase (trim (String_ (row !! "churn"%string))) = "true"%string)
       then Fin 1 else Fin 0;
     ModelRow.minutes :=
       (day + eve + toNum (row !! "total night minutes"%string)
        + toNum (row !! "total intl minutes"%string))%num;
     ModelRow.serviceCalls := toNum (row !! "customer service calls"%string);
     ModelRow.interactionPulse :=
       round ((toNum (row !! "total day calls"%string)
               + toNum (row !! "total eve calls"%string)
               + toNum (row !! "total night calls"%string)) / Fin 3)%num;
     ModelRow.raw := row |}.

(** *** Arrays *)

(** [Array.prototype.sort(cmp)].  The comparator's result is read as in
    ECMAScript's SortCompare: [x] is put after [y] only when [cmp x y > 0];
    a [NaN] result counts as zero.  The sort is stable: elements the
    comparator does not order keep their relative position.  Where the
    comparator orders the elements consistently this fixes the result; where
    it does not (a [NaN] between two elements it orders with others) the
    result is the engine's, and the one here is that of inserting the
    elements from the last to the first. *)
Fixpoint sortInsert {A : Type} (cmp : A -> A -> num) (x : A) (l : list A) : list A :=
  match l with
  | [] => [x]
  | y :: r => if (cmp x y >? Fin 0)%num then y :: sortInsert cmp x r else x :: l
  end.

Definition Array_sort {A : Type} (cmp : A -> A -> num) (l : list A) : list A :=
  foldr (sortInsert cmp) [] l.

(** [arr.slice(0, k)] and [arr.slice(-k)]. *)
Definition sliceTo {A : Type} (k : nat) (l : list A) : list A := take k l.
Definition sliceLast {A : Type} (k : nat) (l : list A) : list A :=
  drop (length l - k) l.

(** [new Array(m).fill(0)] *)
Definition zeros (m : nat) : list num := replicate m (Fin 0).

(** [arr.reduce((acc, cur) => acc + f(cur), 0)] *)
Definition sumBy {A : Type} (f : A -> num) (l : list A) : num :=
  foldl (fun acc cur => (acc + f cur)%num) (Fin 0) l.

(** *** Model trainer *)

(** [row.map((value, j) => (value - means[j]) / stds[j])] *)
Definition standardize (means stds : list num) (row : list num) : list num :=
  imap (fun j value => ((value - at_ means j) / at_ stds j)%num) row.

(** [z = b; for (j < m) z += w[j] * zrow[j]] *)
Definition linear (w : list num) (b : num) (zrow : list num) (m : nat) : num :=
  foldl (fun z j => (z + at_ w j * at_ zrow j)%num) b (seq 0 m).

(** One epoch of full-batch gradient descent over the standardized rows. *)
Definition epochStep (Zs : list (list num)) (y : list num) (n : num) (m : nat)
    (lr l2 : num) (wb : list num * num) : list num * num :=
  let '(w, b) := wb in
  let '(dw, db) :=
    foldl (fun (acc : list num * num) (i : nat) =>
             let '(dw, db) := acc in
             let zrow := default [] (Zs !! i) in
             let z := linear w b zrow m in
             let p := sigmoid z in
             let diff := (p - at_ y i)%num in
             (imap (fun j d => (d + diff * at_ zrow j)%num) dw, (db + diff)%num))
          (zeros m, Fin 0) (seq 0 (length Zs)) in
  (imap (fun j wj => let grad := (at_ dw j / n + l2 * wj)%num in (wj - lr * grad)%num) w,
   (b - lr * (db / n))%num).

Definition trainLogisticRegression (rows : list ModelRow.t)
    (epochs : nat) (lr l2 : num) : TrainedModel.t :=
  let X := map (fun row => featureVector (ModelRow.raw row)) rows in
  let y := map ModelRow.actualChurn rows in
  let n := JsNum.ofNat (length X) in
  let m := length featureDefs in
  let means := map (fun j => (sumBy (fun row => at_ row j) X / n)%num) (seq 0 m) in
  let stds :=
    map (fun j =>
           let variance :=
             (sumBy (fun row => sqr (at_ row j - at_ means j)) X
              / max (Fin 1) (n - Fin 1))%num in
           let s := Math_sqrt variance in
           if truthy s then s else Fin 1)
        (seq 0 m) in
  let Zs := map (standardize means stds) X in
  let '(w, b) := Nat.iter epochs (epochStep Zs y n m lr l2) (zeros m, Fin 0) in
  {| TrainedModel.weights := w; TrainedModel.bias := b;
     TrainedModel.means := means; TrainedModel.stds := stds |}.

(** The default arguments of the source: [epochs = 500, lr = 0.05, l2 = 0.0005]. *)
Definition trainLogisticRegression_defaults (rows : list ModelRow.t) : TrainedModel.t :=
  trainLogisticRegression rows 500 (Fin (5 # 100)) (Fin (5 # 10000)).

(** *** Scorer *)

Definition contributions (rawX zX : list num) (logisticModel : TrainedModel.t)
    : list Contribution.t :=
  imap (fun j def =>
          {| Contribution.feature := FeatureDef.name def;
             Contribution.value := at_ rawX j;
             Contribution.effect :=
               (at_ (TrainedModel.weights logisticModel) j * at_ zX j)%num |})
       featureDefs.

Definition byMagnitude (a b : Contribution.t) : num :=
  (abs (Contribution.effect b) - abs (Contribution.effect a))%num.

Definition toDriver (driver : Contribution.t) : RiskDriver.t :=
  {| RiskDriver.feature := Contribution.feature driver;
     RiskDriver.direction :=
       if (Contribution.effect driver >=? Fin 0)%num then "up"%string else "down"%string;
     RiskDriver.impact := toFixed 3 (abs (Contribution.effect driver)) |}.

(** [contributions.slice().sort(byMagnitude).slice(0, 5).map(toDriver)] *)
Definition rankDrivers (contributions : list Contribution.t) : list RiskDriver.t :=
  map toDriver (sliceTo 5 (Array_sort byMagnitude contributions)).

Definition scoreRow (row : ModelRow.t) (logisticModel : TrainedModel.t) : ScoredRow.t :=
  let rawX := featureVector (ModelRow.raw row) in
  let zX := standardize (TrainedModel.means logisticModel)
                        (TrainedModel.stds logisticModel) rawX in
  let z := linear (TrainedModel.weights logisticModel)
                  (TrainedModel.bias logisticModel) zX (length zX) in
  let churnRisk := toFixed 2 (sigmoid z * Fin 100)%num in
  let riskDrivers := rankDrivers (contributions rawX zX logisticModel) in
  {| ScoredRow.id := ModelRow.id row;
     ScoredRow.state := ModelRow.state row;
     ScoredRow.platform := ModelRow.platform row;
     ScoredRow.tier := ModelRow.tier row;
     ScoredRow.actualChurn := ModelRow.actualChurn row;
     ScoredRow.minutes := ModelRow.minutes row;
     ScoredRow.serviceCalls := ModelRow.serviceCalls row;
     ScoredRow.interactionPulse := ModelRow.interactionPulse row;
     ScoredRow.raw := ModelRow.raw row;
     ScoredRow.churnRisk := churnRisk;
     ScoredRow.bufferingRate :=
       toFixed 2 (clamp01 (ModelRow.serviceCalls row / Fin 8) * Fin 6)%num;
     ScoredRow.satisfaction :=
       max (Fin 20) (min (Fin 99) (round (Fin 100 - churnRisk * Fin (7 # 10))%num));
     ScoredRow.riskDrivers := riskDrivers |}.

(** *** Evaluator *)

Definition countIf {A : Type} (p : A -> bool) (l : list A) : nat :=
  length (List.filter p l).

(** The four counters are integers no larger than the array's length, on
    which the additions of the source are exact; they are counted and added
    as integers. *)
Definition evaluateModel (rows : list ScoredRow.t) : ModelStats :=
  let threshold := Fin 50 in
  let pred row := (ScoredRow.churnRisk row >=? threshold)%num in
  let labelled v row := eqb (ScoredRow.actualChurn row) v in
  let tp := countIf (fun row => pred row && labelled (Fin 1) row) rows in
  let fp := countIf (fun row => pred row && labelled (Fin 0) row) rows in
  let tn := countIf (fun row => negb (pred row) && labelled (Fin 0) row) rows in
  let fn := countIf (fun row => negb (pred row) && labelled (Fin 1) row) rows in
  let total := if (length rows =? 0)%nat then Fin 1 else JsNum.ofNat (length rows) in
  let precision :=
    if (0 <? tp + fp)%nat then (JsNum.ofNat tp / JsNum.ofNat (tp + fp))%num else Fin 0 in
  let recall :=
    if (0 <? tp + fn)%nat then (JsNum.ofNat tp / JsNum.ofNat (tp + fn))%num else Fin 0 in
  let f1 :=
    if (precision + recall >? Fin 0)%num
    then (Fin 2 * precision * recall / (precision + recall))%num else Fin 0 in
  {| threshold := threshold;
     accuracy := toFixed 2 (JsNum.ofNat (tp + tn) / total * Fin 100)%num;
     precision := toFixed 2 (precision * Fin 100)%num;
     recall := toFixed 2 (recall * Fin 100)%num;
     f1 := toFixed 2 (f1 * Fin 100)%num |}.

(** *** Stream aggregator *)

Definition summarizePlatform (rows : list ScoredRow.t) (platform : string)
    : PlatformMetric.t :=
  let group := List.filter (fun row => bool_decide (ScoredRow.platform row = platform)) rows in
  if (length group =? 0)%nat
  then PlatformMetric.mk platform 0 (Fin 0) (Fin 0) (Fin 0) (Fin 0)
  else
    let avg calc := toFixed 2 (calc / JsNum.ofNat (length group))%num in
    {| PlatformMetric.name := platform;
       PlatformMetric.activeUsers := length group;
       PlatformMetric.avgRisk := avg (sumBy ScoredRow.churnRisk group);
       PlatformMetric.serviceLoad := avg (sumBy ScoredRow.serviceCalls group);
       PlatformMetric.avgMinutes := avg (sumBy ScoredRow.minutes group);
       PlatformMetric.satisfaction := avg (sumBy ScoredRow.satisfaction group) |}.

(** The three bands as the source lists them: name, min, max, color. *)
Definition buckets : list (string * num * num * string) :=
  [ ("Low", Fin 0, Fin 34, "#45f4b0");
    ("Medium", Fin 34, Fin 67, "#73beff");
    ("High", Fin 67, Fin 101, "#ff6ea6") ]%string.

Definition inBucket (lo hi : num) (row : ScoredRow.t) : bool :=
  (ScoredRow.churnRisk row >=? lo)%num && (ScoredRow.churnRisk row <? hi)%num.

Definition getRiskDistribution (rows : list ScoredRow.t) : list Bucket.t :=
  let total := if (length rows =? 0)%nat then Fin 1 else JsNum.ofNat (length rows) in
  map (fun bucket : string * num * num * string =>
         let '(name, lo, hi, color) := bucket in
         let users := length (List.filter (inBucket lo hi) rows) in
         {| Bucket.name := name; Bucket.min := lo; Bucket.max := hi;
            Bucket.color := color; Bucket.users := users;
            Bucket.share := toFixed 2 (JsNum.ofNat users / total * Fin 100)%num |})
      buckets.

(** [buildAlerts].  [stamp k] is the text of the [k]-th reading of
    [Date.now()] made while the alerts are built. *)
Definition criticalAlert (stamp : string) (platform : PlatformMetric.t) : Alert.t :=
  {| Alert.id := "risk-" +:+ PlatformMetric.name platform +:+ "-" +:+ stamp;
     Alert.severity := "critical";
     Alert.title := PlatformMetric.name platform +:+ " risk escalation";
     Alert.message :=
       "Average risk at " +:+ showNum (PlatformMetric.avgRisk platform)
       +:+ "% with service load " +:+ showNum (PlatformMetric.serviceLoad platform)
       +:+ "." |}.

Definition warningAlert (stamp : string) (highRiskCount : nat) : Alert.t :=
  {| Alert.id := "cohort-" +:+ stamp;
     Alert.severity := "warning";
     Alert.title := "High-risk cohort concentration";
     Alert.message :=
       JsStr.ofNat highRiskCount
       +:+ " customers in high-risk zone in active stream window." |}.

Definition escalated (platform : PlatformMetric.t) : bool :=
  (PlatformMetric.avgRisk platform >? Fin 62)%num.

Definition buildAlerts (stamp : nat -> string)
    (platformMetrics : list PlatformMetric.t) (highRiskCount : nat) : list Alert.t :=
  let alerts :=
    imap (fun k platform => criticalAlert (stamp k) platform)
         (List.filter escalated platformMetrics) in
  let alerts :=
    if (40 <? highRiskCount)%nat
    then alerts ++ [warningAlert (stamp (length alerts)) highRiskCount]
    else alerts in
  sliceTo 8 alerts.

(** [nextBatch]: [size] reads of [mappedRows[cursor]], the cursor stepping
    cyclically.  A read out of range yields [undefined] ([None]). *)
Fixpoint nextBatchLoop (mappedRows : list ScoredRow.t) (size : nat)
    (out : list (option ScoredRow.t)) (cursor : nat)
    : list (option ScoredRow.t) * nat :=
  match size with
  | O => (out, cursor)
  | S k =>
      nextBatchLoop mappedRows k (out ++ [mappedRows !! cursor])
                    ((cursor + 1) mod length mappedRows)%nat
  end.

Definition nextBatch (size : nat) (mappedRows : list ScoredRow.t) (cursor : nat)
    : list (option ScoredRow.t) * nat :=
  if (length mappedRows =? 0)%nat then ([], cursor)
  else nextBatchLoop mappedRows size [] cursor.

(** The default batch size of the source. *)
Definition batchSize : nat := 45.

(** [refreshState]: one tick.  What the tick returns besides the new
    variables: the snapshot sent by [io.emit], or the [TypeError] a property
    read on [undefined] raises (the variables assigned before it stay
    assigned). *)
Inductive Outcome : Type :=
| Emitted (snapshot : Snapshot.t)
| TypeError.

Fixpoint allDefined {A : Type} (l : list (option A)) : option (list A) :=
  match l with
  | [] => Some []
  | Some x :: r => option_map (cons x) (allDefined r)
  | None :: _ => None
  end.

Definition byRisk (a b : ScoredRow.t) : num :=
  (ScoredRow.churnRisk b - ScoredRow.churnRisk a)%num.

Definition toTopRisk (row : ScoredRow.t) : TopRisk.t :=
  {| TopRisk.id := ScoredRow.id row;
     TopRisk.platform := ScoredRow.platform row;
     TopRisk.state := ScoredRow.state row;
     TopRisk.tier := ScoredRow.tier row;
     TopRisk.risk := ScoredRow.churnRisk row;
     TopRisk.serviceCalls := ScoredRow.serviceCalls row;
     TopRisk.interactionPulse := ScoredRow.interactionPulse row;
     TopRisk.riskDrivers := ScoredRow.riskDrivers row |}.

Definition toStreamCustomer (row : ScoredRow.t) : StreamCustomer.t :=
  {| StreamCustomer.id := ScoredRow.id row;
     StreamCustomer.platform := ScoredRow.platform row;
     StreamCustomer.state := ScoredRow.state row;
     StreamCustomer.tier := ScoredRow.tier row;
     StreamCustomer.risk := ScoredRow.churnRisk row;
     StreamCustomer.interactionPulse := ScoredRow.interactionPulse row;
     StreamCustomer.serviceCalls := ScoredRow.serviceCalls row;
     StreamCustomer.minutes := ScoredRow.minutes row;
     StreamCustomer.riskDrivers := ScoredRow.riskDrivers row |}.

Definition toPulse (id : string) (row : ScoredRow.t) : LivePulse.t :=
  {| LivePulse.id := id;
     LivePulse.platform := ScoredRow.platform row;
     LivePulse.state := ScoredRow.state row;
     LivePulse.tier := ScoredRow.tier row;
     LivePulse.interactionPulse := ScoredRow.interactionPulse row;
     LivePulse.risk := ScoredRow.churnRisk row;
     LivePulse.bufferingRate := ScoredRow.bufferingRate row;
     LivePulse.riskDrivers := ScoredRow.riskDrivers row |}.

(** [distribution.find((d) => d.name === "High")?.users || 0] *)
Definition highUsers (distribution : list Bucket.t) : nat :=
  match List.find (fun d => bool_decide (Bucket.name d = "High"%string)) distribution with
  | Some d => Bucket.users d
  | None => 0%nat
  end.

Definition refreshState (now : Clock) (sv : Server) : Server * Outcome :=
  let '(batch, cursor') := nextBatch batchSize (mappedRows sv) (cursor sv) in
  let streamWindow' := sliceLast 620 (streamWindow sv ++ batch) in
  let assigned (trendWindow' : list TrendPoint.t) (state' : Snapshot.t) : Server :=
    {| state := state'; mappedRows := mappedRows sv; model := model sv;
       currentDatasetPath := currentDatasetPath sv; cursor := cursor';
       streamWindow := streamWindow'; trendWindow := trendWindow' |} in
  match allDefined streamWindow' with
  | None => (assigned (trendWindow sv) (state sv), TypeError)
  | Some window =>
      let activeSessions := length window in
      let avgChurnRisk :=
        if (0 <? activeSessions)%nat
        then toFixed 2 (sumBy ScoredRow.churnRisk window / JsNum.ofNat activeSessions)%num
        else Fin 0 in
      let limit :=
        match Snapshot.modelStats (state sv) with
        | Some stats => threshold stats
        | None => Fin 50
        end in
      let predictedChurners :=
        countIf (fun row => (ScoredRow.churnRisk row >=? limit)%num) window in
      let totalMinutes := toFixed 2 (sumBy ScoredRow.minutes window) in
      let avgServiceCalls :=
        if (0 <? activeSessions)%nat
        then toFixed 2 (sumBy ScoredRow.serviceCalls window / JsNum.ofNat activeSessions)%num
        else Fin 0 in
      let platformMetrics := map (summarizePlatform window) platforms in
      let distribution := getRiskDistribution window in
      let topRiskCustomers := map toTopRisk (sliceTo 14 (Array_sort byRisk window)) in
      let trendPoint :=
        {| TrendPoint.time := localeTime now; TrendPoint.risk := avgChurnRisk;
           TrendPoint.churners := predictedChurners;
           TrendPoint.active := activeSessions |} in
      let trendWindow' := sliceLast 24 (trendWindow sv ++ [trendPoint]) in
      let publish (liveFeed' : list LivePulse.t) : Server * Outcome :=
        let state' :=
          {| Snapshot.kpis :=
               mkKpis activeSessions avgChurnRisk predictedChurners totalMinutes
                      avgServiceCalls;
             Snapshot.platformMetrics := platformMetrics;
             Snapshot.riskDistribution := distribution;
             Snapshot.trend := trendWindow';
             Snapshot.liveFeed := liveFeed';
             Snapshot.topRiskCustomers := topRiskCustomers;
             Snapshot.alerts :=
               buildAlerts (dateNow now) platformMetrics (highUsers distribution);
             Snapshot.modelStats := Snapshot.modelStats (state sv);
             Snapshot.states := Snapshot.states (state sv);
             Snapshot.platforms := Snapshot.platforms (state sv);
             Snapshot.streamCustomers := map toStreamCustomer window;
             Snapshot.updateAt := isoString now;
             Snapshot.datasetInfo := Snapshot.datasetInfo (state sv) |} in
        (assigned trendWindow' state', Emitted state') in
      match last batch with
      | None => publish (Snapshot.liveFeed (state sv))
      | Some None => (assigned trendWindow' (state sv), TypeError)
      | Some (Some row) =>
          let pulse := toPulse (getTime now +:+ "-" +:+ JsStr.ofNat cursor') row in
          publish (sliceTo 30 (pulse :: Snapshot.liveFeed (state sv)))
      end
  end.

(** [n] ticks, one clock reading each. *)
Fixpoint ticks (clock : nat -> Clock) (n : nat) (sv : Server) : Server :=
  match n with
  | O => sv
  | S k => fst (refreshState (clock k) (ticks clock k sv))
  end.

(** *** Dataset loader *)

Inductive Thrown : Type :=
| ErrorDatasetNotFound (absolute : string)
| ErrorRead
| ThrownTypeError.

Definition quote : ascii := "034"%char.
Definition comma : ascii := ","%char.

Definition trimChars (value : list ascii) : string :=
  trim (string_of_list_ascii value).

Fixpoint parseCsvLoop (line : list ascii) (value : list ascii) (inQuotes : bool)
    (out : list string) : list string :=
  match line with
  | [] => out ++ [trimChars value]
  | c :: rest =>
      if decide (c = quote) then
        match rest with
        | c' :: rest' =>
            if inQuotes && bool_decide (c' = quote)
            then parseCsvLoop rest' (value ++ [quote]) inQuotes out
            else parseCsvLoop rest value (negb inQuotes) out
        | [] => parseCsvLoop rest value (negb inQuotes) out
        end
      else if bool_decide (c = comma) && negb inQuotes
      then parseCsvLoop rest [] inQuotes (out ++ [trimChars value])
      else parseCsvLoop rest (value ++ [c]) inQuotes out
  end.

Definition parseCsvLine (line : string) : list string :=
  parseCsvLoop (list_ascii_of_string line) [] false [].

(** [raw.split(/\r?\n/)] *)
Fixpoint splitLines (text : list ascii) (cur : list ascii) : list string :=
  match text with
  | [] => [string_of_list_ascii cur]
  | c :: rest =>
      if decide (c = "010"%char) then string_of_list_ascii cur :: splitLines rest []
      else
        match rest with
        | c' :: rest' =>
            if bool_decide (c = "013"%char) && bool_decide (c' = "010"%char)
            then string_of_list_ascii cur :: splitLines rest' []
            else splitLines rest (cur ++ [c])
        | [] => splitLines rest (cur ++ [c])
        end
  end.

Variable resolve : string -> string.

(** [raw.split(/\r?\n/).filter(Boolean)] on the trimmed text of the file. *)
Definition datasetLines (content : string) : list string :=
  List.filter (fun l => negb (bool_decide (l = EmptyString)))
              (splitLines (list_ascii_of_string (trim content)) []).

(** [record[header] = value] on an object literal: an own property is
    created or overwritten, except under the key [__proto__], where the
    setter inherited from [Object.prototype] receives the string and leaves
    the object as it is. *)
Definition assign (record : RawRecord) (header value : string) : RawRecord :=
  if decide (header = "__proto__"%string) then record
  else <[header := value]> record.

Definition loadDataset (fs : FileSystem) (csvPath : string)
    : Thrown + list RawRecord :=
  let absolute := resolve csvPath in
  match fs absolute with
  | None => inl (ErrorDatasetNotFound absolute)
  | Some Unreadable => inl ErrorRead
  | Some (RegularFile content) =>
      match datasetLines content with
      | [] => inl ThrownTypeError
      | first :: others =>
          let headers := parseCsvLine first in
          inr (map (fun line =>
                      let parts := parseCsvLine line in
                      foldl (fun (record : RawRecord) (h : nat * string) =>
                               assign record (snd h) (orElse (parts !! fst h) EmptyString))
                            ∅ (imap pair headers))
                   others)
      end
  end.

(** [[...new Set(l)]]: the first occurrence of each value, in order. *)
Fixpoint distinct (seen : list string) (l : list string) : list string :=
  match l with
  | [] => []
  | x :: r => if bool_decide (x ∈ seen) then distinct seen r
              else x :: distinct (x :: seen) r
  end.

(** The default comparator of [sort()]: code-unit order of the strings. *)
Definition compareStrings (x y : string) : num :=
  if String.ltb x y then Fin (-1)
  else if String.ltb y x then Fin 1
  else Fin 0.

Definition initData (fs : FileSystem) (csvPath : string) (sv : Server)
    : Server * bool :=
  match loadDataset fs csvPath with
  | inl _ => (sv, false)
  | inr rawRows =>
      let modelingRows := imap (fun idx row => toModelRow row idx) rawRows in
      let model' :=
        trainLogisticRegression modelingRows 650 (Fin (7 # 100)) (Fin (7 # 10000)) in
      let mapped := map (fun row => scoreRow row model') modelingRows in
      let allStates :=
        Array_sort compareStrings (distinct [] (map ScoredRow.state mapped)) in
      let state' :=
        {| Snapshot.kpis := Snapshot.kpis (state sv);
           Snapshot.platformMetrics := Snapshot.platformMetrics (state sv);
           Snapshot.riskDistribution := Snapshot.riskDistribution (state sv);
           Snapshot.trend := [];
           Snapshot.liveFeed := [];
           Snapshot.topRiskCustomers := Snapshot.topRiskCustomers (state sv);
           Snapshot.alerts := Snapshot.alerts (state sv);
           Snapshot.modelStats := Some (evaluateModel mapped);
           Snapshot.states := allStates;
           Snapshot.platforms := Snapshot.platforms (state sv);
           Snapshot.streamCustomers := Snapshot.streamCustomers (state sv);
           Snapshot.updateAt := Snapshot.updateAt (state sv);
           Snapshot.datasetInfo := mkDatasetInfo csvPath (length mapped) |} in
      ({| state := state'; mappedRows := mapped; model := Some model';
          currentDatasetPath := csvPath; cursor := 0%nat;
          streamWindow := []; trendWindow := [] |}, true)
  end.

(** *** Startup and the request handlers *)

(** The module-level variables as the source initialises them;
    [startedAt] is the text of [new Date().toISOString()] at that moment. *)
Definition initialServer (datasetPath startedAt : string) : Server :=
  {| state :=
       {| Snapshot.kpis := mkKpis 0 (Fin 0) 0 (Fin 0) (Fin 0);
          Snapshot.platformMetrics := [];
          Snapshot.riskDistribution := [];
          Snapshot.trend := [];
          Snapshot.liveFeed := [];
          Snapshot.topRiskCustomers := [];
          Snapshot.alerts := [];
          Snapshot.modelStats := None;
          Snapshot.states := [];
          Snapshot.platforms := platforms;
          Snapshot.streamCustomers := [];
          Snapshot.updateAt := startedAt;
          Snapshot.datasetInfo := mkDatasetInfo datasetPath 0 |};
     mappedRows := [];
     model := None;
     currentDatasetPath := datasetPath;
     cursor := 0%nat;
     streamWindow := [];
     trendWindow := [] |}.

(** [initData(datasetPath); refreshState();] at the end of the module. *)
Definition boot (fs : FileSystem) (datasetPath startedAt : string) (now : Clock)
    : Server :=
  fst (refreshState now (fst (initData fs datasetPath (initialServer datasetPath startedAt)))).

Record HealthBody : Type := mkHealthBody {
  status : string;
  updatedAt : string;
  datasetRows : nat;
  datasetPath : string;
  healthModelStats : option ModelStats
}.

Inductive Body : Type :=
| ErrorBody (error : string)
| UploadBody (success : bool) (message : string) (uploadedRows : nat)
| HealthReply (health : HealthBody)
| SnapshotBody (snapshot : Snapshot.t).

Record Response : Type := mkResponse { statusCode : nat; body : Body }.

(** [POST /api/upload]; [file] is [req.file.path], absent when no file
    came with the request. *)
Definition postUpload (fs : FileSystem) (file : option string) (sv : Server)
    : Server * Response :=
  match file with
  | None => (sv, mkResponse 400 (ErrorBody "No file uploaded"))
  | Some path =>
      let '(sv', ok) := initData fs path sv in
      if ok
      then (sv', mkResponse 200
                   (UploadBody true "Dataset uploaded and model re-trained"
                               (length (mappedRows sv'))))
      else (sv', mkResponse 500 (ErrorBody "Failed to initialize dataset"))
  end.

(** [GET /health] *)
Definition getHealth (sv : Server) : Response :=
  mkResponse 200
    (HealthReply
       {| status := "ok";
          updatedAt := Snapshot.updateAt (state sv);
          datasetRows := rows (Snapshot.datasetInfo (state sv));
          datasetPath := path (Snapshot.datasetInfo (state sv));
          healthModelStats := Snapshot.modelStats (state sv) |}).

(** [GET /api/snapshot] *)
Definition getSnapshot (sv : Server) : Response :=
  mkResponse 200 (SnapshotBody (state sv)).

(** What reaches the server after startup: an upload, a read of the health
    or of the snapshot, or the timer firing [refreshState]. *)
Inductive Request : Type :=
| PostUpload (fs : FileSystem) (file : option string)
| GetHealth
| GetSnapshot
| TimerTick (now : Clock).

Inductive Result : Type :=
| Replied (response : Response)
| Ticked (outcome : Outcome).

Definition serve (request : Request) (sv : Server) : Server * Result :=
  match request with
  | PostUpload fs file =>
      let '(sv', response) := postUpload fs file sv in (sv', Replied response)
  | GetHealth => (sv, Replied (getHealth sv))
  | GetSnapshot => (sv, Replied (getSnapshot sv))
  | TimerTick now =>
      let '(sv', outcome) := refreshState now sv in (sv', Ticked outcome)
  end.

(** The variables after a sequence of requests, and what each produced. *)
Fixpoint run (requests : list Request) (sv : Server) : Server * list Result :=
  match requests with
  | [] => (sv, [])
  | request :: rest =>
      let '(sv', result) := serve request sv in
      let '(sv'', results) := run rest sv' in
      (sv'', result :: results)
  end.

End Engine.

(** ** Concrete stand-ins for the built-ins, to run the engine on examples *)

Module Builtins.

Definition digitVal (c : ascii) : option Z :=
  let n := nat_of_ascii c in
  if ((48 <=? n)%nat && (n <=? 57)%nat)%bool then Some (Z.of_nat n - 48) else None.

(** Value and number of digits of a run of decimal digits. *)
Fixpoint digits (l : list ascii) (acc : Z) : option Z :=
  match l with
  | [] => Some acc
  | c :: r => match digitVal c with
              | Some d => digits r (acc * 10 + d)
              | None => None
              end
  end.

Fixpoint splitDot (l : list ascii) (whole : list ascii) : list ascii * option (list ascii) :=
  match l with
  | [] => (whole, None)
  | c :: r => if decide (c = "."%char) then (whole, Some r) else splitDot r (whole ++ [c])
  end.

(** [Number(s)] on the unsigned decimal literals [ddd] and [ddd.ddd], on
    the empty text (zero) and [NaN] elsewhere. *)
Definition decimalToNumber (s : string) : num :=
  let l := list_ascii_of_string (trim s) in
  match l with
  | [] => Fin 0
  | _ =>
      match splitDot l [] with
      | (whole, None) =>
          match whole, digits whole 0 with
          | _ :: _, Some w => Fin (inject_Z w)
          | _, _ => NaN
          end
      | (whole, Some frac) =>
          match whole ++ frac, digits whole 0, digits frac 0 with
          | _ :: _, Some w, Some f =>
              Fin (inject_Z w + inject_Z f / inject_Z (10 ^ Z.of_nat (length frac)))
          | _, _, _ => NaN
          end
      end
  end.

(** A positive stand-in for the exponential: [2 ^ floor q]. *)
Definition exp_dyadic (q : Q) : Q := Qpower 2 (Qfloor q).

(** A stand-in for the square root: the integer square root of [floor q]. *)
Definition sqrt_floor (q : Q) : Q := inject_Z (Z.sqrt (Qfloor q)).

(** A stand-in for number-to-text: integers in decimal, [?] elsewhere. *)
Definition showInteger (x : num) : string :=
  match x with
  | Fin q =>
      if Qeq_bool q (inject_Z (Qfloor q))
      then (if (Qfloor q <? 0)%Z then "-" else EmptyString)
           +:+ JsStr.ofNat (Z.to_nat (Z.abs (Qfloor q)))
      else "?"
  | _ => "?"
  end.

End Builtins.

(** ** Definitions used to state the properties *)

Definition finite (x : num) : Prop := isFinite x = true.
Definition isNumber (x : num) : Prop := x <> NaN.

(** [between lo hi x]: [x] is a finite number with [lo <= x <= hi]. *)
Definition between (lo hi : Q) (x : num) : Prop :=
  exists q : Q, x = Fin q /\ (lo <= q)%Q /\ (q <= hi)%Q.


(** The three counts of the risk distribution: Low, Medium, High. *)
Definition bucketCounts (rows : list ScoredRow.t) : list nat :=
  map Bucket.users (getRiskDistribution rows).

(** The caps of the stream window, the trend history and the live feed. *)
Definition withinCaps (sv : Server) : Prop :=
  (length (streamWindow sv) <= 620)%nat
  /\ (length (trendWindow sv) <= 24)%nat
  /\ (length (Snapshot.liveFeed (state sv)) <= 30)%nat.

(** [n] consecutive draws of a batch: everything drawn, in order, and the
    cursor afterwards. *)
Fixpoint draws (n : nat) (mappedRows : list ScoredRow.t) (cursor : nat)
    : list (option ScoredRow.t) * nat :=
  match n with
  | O => ([], cursor)
  | S k =>
      let '(out, c) := draws k mappedRows cursor in
      let '(batch, c') := nextBatch batchSize mappedRows c in
      (out ++ batch, c')
  end.

(** The row a round-robin walk from [cursor] visits at its [k]-th step. *)
Definition roundRobin (mappedRows : list ScoredRow.t) (cursor k : nat)
    : option ScoredRow.t :=
  mappedRows !! ((cursor + k) mod length mappedRows)%nat.

(** [clamp(x, lo, hi)] *)
Definition clamp (lo hi x : num) : num := max lo (min hi x).


(** The linear score [z] that [scoreRow] feeds to the sigmoid:
    [bias + sum_j weight_j * standardizedValue_j], added in feature order. *)
Definition logitOf (StringToNumber : string -> num)
    (row : ModelRow.t) (logisticModel : TrainedModel.t) : num :=
  let zX := standardize (TrainedModel.means logisticModel)
                        (TrainedModel.stds logisticModel)
                        (featureVector StringToNumber (ModelRow.raw row)) in
  linear (TrainedModel.weights logisticModel) (TrainedModel.bias logisticModel)
         zX (length zX).






(** Feature [i] comes before feature [j] in the ranking: its magnitude is
    larger, or the magnitudes are equal and [i] is defined first. *)
Definition outranks (magnitude : nat -> num) (i j : nat) : Prop :=
  (magnitude j <? magnitude i)%num = true
  \/ (eqb (magnitude i) (magnitude j) = true /\ (i < j)%nat).

(** ** Sample inputs *)

Module Sample.

Definition record (state phone day eve calls churn : string) : RawRecord :=
  list_to_map
    [ ("state", state); ("account length", "128"); ("area code", "415");
      ("phone number", phone); ("international plan", "no");
      ("voice mail plan", "yes"); ("number vmail messages", "25");
      ("total day minutes", day); ("total day calls", "110");
      ("total eve minutes", eve); ("total eve calls", "99");
      ("total night minutes", "244.7"); ("total night calls", "91");
      ("total intl minutes", "10.0"); ("customer service calls", calls);
      ("churn", churn) ]%string.

Definition recordKS : RawRecord := record "KS" "382-4657" "265.1" "197.4" "1" "False".
Definition recordOH : RawRecord := record "OH" "371-7191" "161.6" "195.5" "4" " TRUE ".

Definition logisticModel : TrainedModel.t :=
  {| TrainedModel.weights :=
       [Fin (1 # 20); Fin (3 # 5); Fin (- (2 # 5)); Fin (1 # 10); Fin (7 # 10);
        Fin (3 # 10); Fin (1 # 10); Fin (1 # 5); Fin (4 # 5)];
     TrainedModel.bias := Fin (- (9 # 5));
     TrainedModel.means :=
       [Fin 101; Fin (1 # 10); Fin (3 # 10); Fin 8; Fin 180; Fin 201; Fin 200;
        Fin 10; Fin (3 # 2)];
     TrainedModel.stds :=
       [Fin 40; Fin (3 # 10); Fin (9 # 20); Fin 14; Fin 54; Fin 51; Fin 50;
        Fin 3; Fin (13 # 10)] |}.

Definition rowKS : ModelRow.t := toModelRow Builtins.decimalToNumber recordKS 0.
Definition rowOH : ModelRow.t := toModelRow Builtins.decimalToNumber recordOH 1.

Definition scoredKS : ScoredRow.t :=
  scoreRow Builtins.decimalToNumber Builtins.exp_dyadic rowKS logisticModel.
Definition scoredOH : ScoredRow.t :=
  scoreRow Builtins.decimalToNumber Builtins.exp_dyadic rowOH logisticModel.

(** The variables as the source initialises them, before the first load. *)
Definition initial : Server :=
  {| state :=
       {| Snapshot.kpis := mkKpis 0 (Fin 0) 0 (Fin 0) (Fin 0);
          Snapshot.platformMetrics := [];
          Snapshot.riskDistribution := [];
          Snapshot.trend := [];
          Snapshot.liveFeed := [];
          Snapshot.topRiskCustomers := [];
          Snapshot.alerts := [];
          Snapshot.modelStats := None;
          Snapshot.states := [];
          Snapshot.platforms := platforms;
          Snapshot.streamCustomers := [];
          Snapshot.updateAt := "2026-01-01T00:00:00.000Z";
          Snapshot.datasetInfo := mkDatasetInfo "../data/data.csv" 0 |};
     mappedRows := [];
     model := None;
     currentDatasetPath := "../data/data.csv";
     cursor := 0;
     streamWindow := [];
     trendWindow := [] |}.

(** The variables after a load of the two sample rows. *)
Definition loaded : Server :=
  {| state := state initial;
     mappedRows := [scoredKS; scoredOH];
     model := Some logisticModel;
     currentDatasetPath := "../data/data.csv";
     cursor := 0;
     streamWindow := [];
     trendWindow := [] |}.

Definition clock (k : nat) : Clock :=
  {| localeTime := "12:00:0" +:+ JsStr.ofNat k;
     getTime := "176727960000" +:+ JsStr.ofNat k;
     isoString := "2026-01-01T12:00:0" +:+ JsStr.ofNat k +:+ ".000Z";
     dateNow := fun i => "176727960000" +:+ JsStr.ofNat (k + i) |}.

(** A file system with no file at all. *)
Definition noFiles : FileSystem := fun _ => None.

(** A file system with a small dataset, a blank file, a header-only file, a
    file with a column named [__proto__], and a directory. *)
Definition files : FileSystem := fun path =>
  if decide (path = "data.csv"%string)
  then Some (RegularFile "state,area code,total day minutes,churn
KS,415,265.1,False
OH,415
NJ,408,243.4,True,extra
")
  else if decide (path = "blank.csv"%string) then Some (RegularFile "
  ")
  else if decide (path = "header.csv"%string)
  then Some (RegularFile "state,area code,total day minutes,churn
")
  else if decide (path = "proto.csv"%string)
  then Some (RegularFile "state,__proto__,churn
KS,x,False
")
  else if decide (path = "uploads"%string) then Some Unreadable
  else None.




(** A row whose day and evening minutes are both [2^1023], written out in
    decimal digits. *)
Definition rowHuge : ModelRow.t :=
  let cell := NilZero.string_of_uint (Pos.to_uint (2 ^ 1023)) in
  toModelRow Builtins.decimalToNumber
    (list_to_map [ ("total day minutes"%string, cell);
                   ("total eve minutes"%string, cell) ]) 0.



(** An upload of the small dataset, a failed upload, reads and ticks. *)
Definition requests : list Request :=
  [ TimerTick (clock 1); GetHealth; PostUpload files (Some "data.csv"%string);
    TimerTick (clock 2); PostUpload files (Some "absent.csv"%string);
    PostUpload files None; GetSnapshot; TimerTick (clock 3) ].

End Sample.

(** ** Definitions used to state the further properties *)

(** A cell text free of quotes and commas, and the line made of such cells. *)
Definition plainField (s : string) : Prop :=
  Forall (fun c => c <> quote /\ c <> comma) (list_ascii_of_string s).

Definition joinFields (fields : list string) : string :=
  String.concat "," fields.

(** A text free of quotes, and the same text between quotes. *)
Definition quoteFree (s : string) : Prop :=
  Forall (fun c => c <> quote) (list_ascii_of_string s).

Definition quoted (s : string) : string :=
  String quote (s +:+ String quote EmptyString).

(** A state in which a tick reads only rows: the cursor is inside a
    non-empty dataset, and every entry of the window is a row of it. *)
Definition wellFormed (sv : Server) : Prop :=
  (mappedRows sv <> [] -> (cursor sv < length (mappedRows sv))%nat)
  /\ Forall (fun entry => exists row, entry = Some row /\ row ∈ mappedRows sv)
            (streamWindow sv).

(** The published dataset metadata describe the dataset in use. *)
Definition infoConsistent (sv : Server) : Prop :=
  rows (Snapshot.datasetInfo (state sv)) = length (mappedRows sv)
  /\ path (Snapshot.datasetInfo (state sv)) = currentDatasetPath sv.

(** The derived fields of a scored row as the scorer can leave them: the
    buffering rate in its range, and the risk and the satisfaction either in
    their ranges or both [NaN]. *)
Definition scoreSound (row : ScoredRow.t) : Prop :=
  between 0 6 (ScoredRow.bufferingRate row)
  /\ ((between 0 100 (ScoredRow.churnRisk row)
       /\ between 20 99 (ScoredRow.satisfaction row))
      \/ (ScoredRow.churnRisk row = NaN /\ ScoredRow.satisfaction row = NaN)).

(** The risk of the [i]-th row of a window, [NaN] past its end. *)
Definition riskAt (window : list ScoredRow.t) (i : nat) : num :=
  match window !! i with
  | Some row => ScoredRow.churnRisk row
  | None => NaN
  end.

(** The results of the ticks among the results of a run. *)
Definition neverThrew (results : list Result) : Prop :=
  Forall (fun result => result <> Ticked TypeError) results.

(** ** Properties *)

(** *** Facts about numbers *)


Lemma finite_inv (x : num) : finite x -> exists q, x = Fin q.
Proof. destruct x; unfold finite; simpl; intros H; try discriminate. eauto. Qed.

Lemma finite_Fin (q : Q) : finite (Fin q).
Proof. reflexivity. Qed.

Lemma Qltb_true (a b : Q) : Qltb a b = true <-> (a < b)%Q.
Proof.
  unfold Qltb. rewrite negb_true_iff. split.
  - intros H. apply Qnot_le_lt. intros Hle. apply Qle_bool_iff in Hle. congruence.
  - intros H. destruct (Qle_bool b a) eqn:E; [|reflexivity].
    apply Qle_bool_iff in E. exfalso. exact (Qlt_not_le _ _ H E).
Qed.

Lemma Qltb_false (a b : Q) : Qltb a b = false <-> (b <= a)%Q.
Proof.
  unfold Qltb. rewrite negb_false_iff. apply Qle_bool_iff.
Qed.

Lemma add_NaN_r (x : num) : (x + NaN)%num = NaN.
Proof. destruct x; reflexivity. Qed.

Lemma mul_NaN_r (x : num) : (x * NaN)%num = NaN.
Proof. destruct x; reflexivity. Qed.

Lemma sub_NaN_r (x : num) : (x - NaN)%num = NaN.
Proof. destruct x; reflexivity. Qed.

(** The overflow threshold lies far above every bound used below. *)
Lemma overflowAt_large : (10000000000000000000000 < overflowAt)%Q.
Proof. unfold overflowAt, Qlt. vm_compute. reflexivity. Qed.

Lemma overflowAt_pos : (0 < overflowAt)%Q.
Proof. pose proof overflowAt_large. lra. Qed.

Lemma fin_exact (q : Q) : (Qabs q < overflowAt)%Q -> fin q = Fin q.
Proof.
  intros H. unfold fin. destruct (Qle_bool overflowAt (Qabs q)) eqn:E; [|reflexivity].
  apply Qle_bool_iff in E. lra.
Qed.

(** A result of magnitude at most [10^22] is carried exactly. *)
Lemma fin_small (q : Q) :
  (- 10000000000000000000000 <= q)%Q -> (q <= 10000000000000000000000)%Q ->
  fin q = Fin q.
Proof.
  intros Hlo Hhi. apply fin_exact. pose proof overflowAt_large.
  apply Qabs_case; intros; lra.
Qed.

(** The three outcomes of an arithmetic result. *)
Lemma fin_cases (q : Q) :
  (fin q = Fin q /\ (Qabs q < overflowAt)%Q)
  \/ (fin q = PInf /\ (overflowAt <= q)%Q)
  \/ (fin q = NInf /\ (q <= - overflowAt)%Q).
Proof.
  unfold fin. destruct (Qle_bool overflowAt (Qabs q)) eqn:E.
  - apply Qle_bool_iff in E. pose proof overflowAt_pos as Hpos.
    unfold signedInf. cbn [xorb]. destruct (Qltb q 0) eqn:Es.
    + apply Qltb_true in Es. right; right. split; [reflexivity|].
      rewrite Qabs_neg in E by lra. lra.
    + apply Qltb_false in Es. right; left. split; [reflexivity|].
      rewrite Qabs_pos in E by lra. lra.
  - left. split; [reflexivity|].
    apply Qnot_le_lt. intros Hle. apply Qle_bool_iff in Hle. congruence.
Qed.

Lemma fin_number (q : Q) : isNumber (fin q).
Proof. destruct (fin_cases q) as [[-> _]|[[-> _]|[-> _]]]; discriminate. Qed.

(** *** C1: training on the empty row list *)

Section TrainEmpty.

Variable StringToNumber : string -> num.
Variables exp_approx sqrt_approx : Q -> Q.

Local Abbreviation train := (trainLogisticRegression StringToNumber exp_approx sqrt_approx).
Local Abbreviation step := (epochStep exp_approx [] [] (JsNum.ofNat 0) (length featureDefs)).

Lemma epochStep_empty_first (lr l2 : num) :
  step lr l2 (zeros (length featureDefs), Fin 0) = (replicate 9 NaN, NaN).
Proof.
  destruct lr; reflexivity.
Qed.

Lemma epochStep_empty_NaN (lr l2 : num) :
  step lr l2 (replicate 9 NaN, NaN) = (replicate 9 NaN, NaN).
Proof. reflexivity. Qed.

Lemma epochs_empty (lr l2 : num) (epochs : nat) :
  Nat.iter (S epochs) (step lr l2) (zeros (length featureDefs), Fin 0)
  = (replicate 9 NaN, NaN).
Proof.
  induction epochs as [|e IH].
  - apply epochStep_empty_first.
  - rewrite Nat.iter_succ, IH. apply epochStep_empty_NaN.
Qed.

(** C1.  On the empty row list no exception is raised, but the returned
    model is not the all-zero one: as soon as one epoch runs, every weight,
    the bias and every mean are [NaN], the unguarded [0 / 0] of
    [dw[j] / n], [db / n] and the column means. *)
Theorem train_empty_rows_all_NaN (epochs : nat) (lr l2 : num) :
  train [] (S epochs) lr l2
  = {| TrainedModel.weights := replicate 9 NaN;
       TrainedModel.bias := NaN;
       TrainedModel.means := replicate 9 NaN;
       TrainedModel.stds := replicate 9 (Fin 1) |}.
Proof.
  unfold trainLogisticRegression.
  change (map (fun row => featureVector StringToNumber (ModelRow.raw row)) [])
    with (@nil (list num)).
  cbn [map length standardize].
  rewrite epochs_empty. reflexivity.
Qed.

(** With no epoch at all the weights and the bias keep their initial zero,
    and the means are still [NaN]. *)
Lemma train_empty_rows_no_epoch (lr l2 : num) :
  train [] 0 lr l2
  = {| TrainedModel.weights := replicate 9 (Fin 0);
       TrainedModel.bias := Fin 0;
       TrainedModel.means := replicate 9 NaN;
       TrainedModel.stds := replicate 9 (Fin 1) |}.
Proof. reflexivity. Qed.

End TrainEmpty.

(** *** C9: what scoring leaves alone *)

Section ScoreFrame.

Variable StringToNumber : string -> num.
Variable exp_approx : Q -> Q.

Local Abbreviation score := (scoreRow StringToNumber exp_approx).

(** C9.  [scoreRow] copies the nine fields of the model row unchanged into
    the scored row; the four remaining fields of the result ([churnRisk],
    [bufferingRate], [satisfaction], [riskDrivers]) are the only additions. *)
Theorem scoreRow_preserves_row (row : ModelRow.t) (logisticModel : TrainedModel.t) :
  let scored := score row logisticModel in
  ScoredRow.id scored = ModelRow.id row
  /\ ScoredRow.state scored = ModelRow.state row
  /\ ScoredRow.platform scored = ModelRow.platform row
  /\ ScoredRow.tier scored = ModelRow.tier row
  /\ ScoredRow.actualChurn scored = ModelRow.actualChurn row
  /\ ScoredRow.minutes scored = ModelRow.minutes row
  /\ ScoredRow.serviceCalls scored = ModelRow.serviceCalls row
  /\ ScoredRow.interactionPulse scored = ModelRow.interactionPulse row
  /\ ScoredRow.raw scored = ModelRow.raw row.
Proof. cbv zeta. unfold scoreRow. cbn. repeat split. Qed.

End ScoreFrame.

(** *** C10: the ground-truth label *)

Section Label.

Variable StringToNumber : string -> num.

Local Abbreviation label :=
  (fun row idx => ModelRow.actualChurn (toModelRow StringToNumber row idx)).

Lemma label_eq (row : RawRecord) (idx : nat) :
  label row idx
  = if decide (toLowerCase (trim (String_ (row !! "churn"%string))) = "true"%string)
    then Fin 1 else Fin 0.
Proof. reflexivity. Qed.

(** C10.  The label is 1 exactly when the record has a [churn] field whose
    text, trimmed and lowercased, is ["true"]; it is 0 otherwise, and in
    particular for a record without that field. *)
Theorem toModelRow_actualChurn (row : RawRecord) (idx : nat) :
  (label row idx = Fin 1
   <-> exists s : string,
         row !! "churn"%string = Some s /\ toLowerCase (trim s) = "true"%string)
  /\ (label row idx = Fin 1 \/ label row idx = Fin 0)
  /\ label (delete "churn"%string row) idx = Fin 0.
Proof.
  split; [|split].
  - rewrite label_eq. destruct (row !! "churn"%string) as [s|] eqn:E; cbn [String_].
    + destruct (decide _) as [Heq|Hne]; split.
      * intros _. exists s. auto.
      * reflexivity.
      * discriminate.
      * intros (s' & [= <-] & Hs'). contradiction.
    + split.
      * destruct (decide _) as [Heq|Hne]; [vm_compute in Heq|]; discriminate.
      * intros (s' & [=] & _).
  - rewrite label_eq. destruct (decide _); auto.
  - rewrite label_eq, lookup_delete_eq. reflexivity.
Qed.

End Label.

(** *** C5: reloading from a missing dataset *)

Section Reload.

Variable StringToNumber : string -> num.
Variables exp_approx sqrt_approx : Q -> Q.
Variable resolve : string -> string.

Local Abbreviation reload :=
  (initData StringToNumber exp_approx sqrt_approx resolve).

(** C5.  When nothing exists at the resolved dataset path, [initData]
    returns [false] and every module-level variable (the published snapshot
    with its [datasetInfo], the model, [mappedRows], the cursor, the stream
    window and the trend history) is what it was before the call. *)
Theorem initData_missing_dataset (fs : FileSystem) (csvPath : string) (sv : Server) :
  fs (resolve csvPath) = None ->
  reload fs csvPath sv = (sv, false).
Proof.
  intros Hmissing. unfold initData, loadDataset. rewrite Hmissing. reflexivity.
Qed.

(** Every failure of the loader leaves the variables alone. *)
Lemma initData_failure_keeps_state (fs : FileSystem) (csvPath : string) (sv : Server) :
  snd (reload fs csvPath sv) = false -> fst (reload fs csvPath sv) = sv.
Proof.
  unfold initData. destruct (loadDataset resolve fs csvPath); cbn; [reflexivity|discriminate].
Qed.

End Reload.

(** *** C6: the alert policy *)

Section Alerts.

Variable showNum : num -> string.

Local Abbreviation alertsOf := (buildAlerts showNum).




End Alerts.

(** *** C3: the risk distribution *)

Lemma bucketCounts_eq (rows : list ScoredRow.t) :
  bucketCounts rows
  = [ countIf (inBucket (Fin 0) (Fin 34)) rows;
      countIf (inBucket (Fin 34) (Fin 67)) rows;
      countIf (inBucket (Fin 67) (Fin 101)) rows ].
Proof. reflexivity. Qed.

Lemma countIf_cons {A : Type} (p : A -> bool) (x : A) (l : list A) :
  countIf p (x :: l) = ((if p x then 1 else 0) + countIf p l)%nat.
Proof. unfold countIf. cbn. destruct (p x); reflexivity. Qed.

(** A risk in [0, 100] lies in exactly one band. *)
Lemma one_band (row : ScoredRow.t) :
  between 0 100 (ScoredRow.churnRisk row) ->
  ((if inBucket (Fin 0) (Fin 34) row then 1 else 0)
   + (if inBucket (Fin 34) (Fin 67) row then 1 else 0)
   + (if inBucket (Fin 67) (Fin 101) row then 1 else 0) = 1)%nat.
Proof.
  intros (q & Hq & Hlo & Hhi). unfold inBucket, geb, leb, ltb. rewrite Hq.
  destruct (Qle_bool 0 q) eqn:E0; [|apply Qle_bool_iff in Hlo; congruence].
  destruct (Qltb q 34) eqn:E1, (Qle_bool 34 q) eqn:E2,
           (Qltb q 67) eqn:E3, (Qle_bool 67 q) eqn:E4, (Qltb q 101) eqn:E5;
    cbn; try reflexivity; exfalso;
    repeat match goal with
           | H : Qltb _ _ = true |- _ => apply Qltb_true in H
           | H : Qltb _ _ = false |- _ => apply Qltb_false in H
           | H : Qle_bool _ _ = true |- _ => apply Qle_bool_iff in H
           | H : Qle_bool ?a ?b = false |- _ =>
               assert (b < a)%Q by (apply Qltb_true; unfold Qltb; rewrite H; reflexivity);
               clear H
           end; lra.
Qed.


(** *** C4: the caps of the window, the trend history and the live feed *)

Lemma sliceLast_length {A : Type} (k : nat) (l : list A) :
  (length (sliceLast k l) <= k)%nat.
Proof. unfold sliceLast. rewrite length_drop. lia. Qed.

Lemma sliceTo_length {A : Type} (k : nat) (l : list A) :
  (length (sliceTo k l) <= k)%nat.
Proof. unfold sliceTo. rewrite length_take. lia. Qed.

Section Caps.

Variable showNum : num -> string.

Local Abbreviation tick := (refreshState showNum).

(** A single tick establishes the caps of the window and of the trend
    history whatever they were before, and keeps the cap of the live feed. *)
Lemma refreshState_withinCaps (now : Clock) (sv : Server) :
  (length (Snapshot.liveFeed (state sv)) <= 30)%nat ->
  (length (trendWindow sv) <= 24)%nat ->
  withinCaps (fst (tick now sv)).
Proof.
  intros Hfeed Htrend. unfold refreshState, withinCaps.
  destruct (nextBatch batchSize (mappedRows sv) (cursor sv)) as [batch cursor'].
  destruct (allDefined _) as [window|]; cbn.
  - destruct (last batch) as [[row|]|]; cbn;
      repeat split.
      all: try first [apply sliceLast_length | apply sliceTo_length | assumption].
      rewrite length_take. lia.
  - repeat split; first [apply sliceLast_length | assumption].
Qed.

(** C4.  From a state within the caps, any number of ticks leaves the stream
    window at no more than 620 entries, the trend history at no more than 24
    and the live feed at no more than 30. *)
Theorem ticks_withinCaps (clock : nat -> Clock) (n : nat) (sv : Server) :
  withinCaps sv -> withinCaps (ticks showNum clock n sv).
Proof.
  intros Hsv. induction n as [|n IH]; [exact Hsv|].
  cbn [ticks]. destruct IH as (_ & Htrend & Hfeed).
  apply refreshState_withinCaps; assumption.
Qed.

End Caps.

(** *** C8: the cyclic cursor *)

Lemma seq_from (a b : nat) : seq a b = map (Nat.add a) (seq 0 b).
Proof.
  pose proof (fmap_add_seq a 0 b) as H. rewrite Nat.add_0_r in H.
  symmetry. exact H.
Qed.

Lemma nextBatchLoop_spec (mappedRows : list ScoredRow.t) (size : nat) :
  forall (out : list (option ScoredRow.t)) (cursor : nat),
    (cursor < length mappedRows)%nat ->
    nextBatchLoop mappedRows size out cursor
    = (out ++ map (roundRobin mappedRows cursor) (seq 0 size),
       ((cursor + size) mod length mappedRows)%nat).
Proof.
  induction size as [|size IH]; intros out cursor Hc.
  - cbn. rewrite app_nil_r, Nat.add_0_r, Nat.mod_small by lia. reflexivity.
  - cbn [nextBatchLoop]. rewrite IH by (apply Nat.mod_upper_bound; lia).
    f_equal.
    + rewrite <- app_assoc. f_equal. cbn [seq map app]. f_equal.
      * unfold roundRobin. rewrite Nat.add_0_r, Nat.mod_small by lia. reflexivity.
      * rewrite <- seq_shift, map_map. apply map_ext. intros k.
        unfold roundRobin. f_equal.
        rewrite Nat.Div0.add_mod_idemp_l. f_equal. lia.
    + rewrite Nat.Div0.add_mod_idemp_l. f_equal. lia.
Qed.

Lemma nextBatch_spec (mappedRows : list ScoredRow.t) (size cursor : nat) :
  mappedRows <> [] -> (cursor < length mappedRows)%nat ->
  nextBatch size mappedRows cursor
  = (map (roundRobin mappedRows cursor) (seq 0 size),
     ((cursor + size) mod length mappedRows)%nat).
Proof.
  intros Hne Hc. unfold nextBatch.
  destruct mappedRows as [|r rows]; [contradiction|].
  cbn [length Nat.eqb]. apply nextBatchLoop_spec. exact Hc.
Qed.

Lemma draws_spec (mappedRows : list ScoredRow.t) (cursor : nat) (n : nat) :
  mappedRows <> [] -> (cursor < length mappedRows)%nat ->
  draws n mappedRows cursor
  = (map (roundRobin mappedRows cursor) (seq 0 (n * batchSize)),
     ((cursor + n * batchSize) mod length mappedRows)%nat).
Proof.
  intros Hne Hc. induction n as [|n IH].
  - cbn. rewrite Nat.add_0_r, Nat.mod_small by lia. reflexivity.
  - cbn [draws]. rewrite IH.
    assert (Hlen : length mappedRows <> 0%nat) by (destruct mappedRows; cbn; congruence).
    rewrite nextBatch_spec by (auto; apply Nat.mod_upper_bound; lia).
    f_equal.
    + replace (S n * batchSize)%nat with (n * batchSize + batchSize)%nat by lia.
      rewrite seq_app, map_app. f_equal.
      rewrite Nat.add_0_l, (seq_from (n * batchSize)), map_map.
      apply map_ext. intros k. unfold roundRobin. f_equal.
      rewrite Nat.Div0.add_mod_idemp_l. f_equal. lia.
    + rewrite Nat.Div0.add_mod_idemp_l. f_equal. lia.
Qed.

(** C8, on the empty dataset: the batch is empty, the cursor stays where it
    is, and no cursor lies in the empty range [0, 0). *)
Lemma nextBatch_empty_dataset_cursor :
  nextBatch batchSize [] 0 = ([], 0%nat)
  /\ ~ (snd (nextBatch batchSize [] 0) < length (@nil ScoredRow.t))%nat.
Proof. split; [reflexivity|]. cbn. lia. Qed.

(** C8, amended.  On a non-empty dataset, with the cursor starting inside
    the dataset: after any number of draws the cursor is inside the dataset;
    the rows drawn are the round-robin walk from the starting cursor; every
    row index is reached by that walk in fewer steps than the dataset has
    rows, so every row has been drawn once the draws cover the dataset
    size. *)
Theorem nextBatch_round_robin (mappedRows : list ScoredRow.t) (cursor n : nat) :
  mappedRows <> [] ->
  (cursor < length mappedRows)%nat ->
  (snd (draws n mappedRows cursor) < length mappedRows)%nat
  /\ fst (draws n mappedRows cursor)
     = map (roundRobin mappedRows cursor) (seq 0 (n * batchSize))
  /\ (forall j : nat, (j < length mappedRows)%nat ->
        exists k : nat,
          (k < length mappedRows)%nat
          /\ roundRobin mappedRows cursor k = mappedRows !! j
          /\ ((length mappedRows <= n * batchSize)%nat ->
              fst (draws n mappedRows cursor) !! k = Some (mappedRows !! j))).
Proof.
  intros Hne Hc.
  assert (Hlen : length mappedRows <> 0%nat) by (destruct mappedRows; cbn; congruence).
  rewrite draws_spec by assumption. cbn [fst snd].
  split; [apply Nat.mod_upper_bound; exact Hlen|]. split; [reflexivity|].
  intros j Hj. set (len := length mappedRows) in *.
  exists ((j + len - cursor) mod len)%nat.
  assert (Hk : ((j + len - cursor) mod len < len)%nat) by (apply Nat.mod_upper_bound; exact Hlen).
  assert (Hwalk : roundRobin mappedRows cursor ((j + len - cursor) mod len) = mappedRows !! j).
  { unfold roundRobin. fold len. f_equal.
    rewrite Nat.Div0.add_mod_idemp_r.
    replace (cursor + (j + len - cursor))%nat with (j + 1 * len)%nat by lia.
    rewrite Nat.Div0.mod_add. apply Nat.mod_small. exact Hj. }
  split; [exact Hk|]. split; [exact Hwalk|].
  intros Hcover. rewrite list_lookup_fmap.
  rewrite lookup_seq_lt by lia. cbn. rewrite Hwalk. reflexivity.
Qed.

(** *** C2: the ranges of the derived fields *)

Ltac Qbools :=
  repeat match goal with
         | H : Qltb _ _ = true |- _ => apply Qltb_true in H
         | H : Qltb _ _ = false |- _ => apply Qltb_false in H
         | H : Qle_bool _ _ = true |- _ => apply Qle_bool_iff in H
         | H : Qle_bool ?a ?b = false |- _ =>
             assert (b < a)%Q by (apply Qltb_true; unfold Qltb; rewrite H; reflexivity);
             clear H
         | H : Qeq_bool _ _ = true |- _ => apply Qeq_bool_iff in H
         | H : Qeq_bool _ _ = false |- _ => apply Qeq_bool_neq in H
         end.

Lemma isNumber_finite (x : num) : finite x -> isNumber x.
Proof. intros [q ->]%finite_inv. discriminate. Qed.

Lemma add_number_finite (x y : num) : isNumber x -> finite y -> isNumber (x + y)%num.
Proof.
  intros Hx [b ->]%finite_inv. destruct x; cbn; try congruence. apply fin_number.
Qed.

Lemma sub_finite_number (x y : num) : finite x -> isNumber y -> isNumber (x - y)%num.
Proof.
  intros [a ->]%finite_inv Hy. destruct y; cbn; try congruence. apply fin_number.
Qed.

Lemma div_number_finite (x : num) (d : Q) :
  isNumber x -> ~ (d == 0)%Q -> isNumber (x / Fin d)%num.
Proof.
  intros Hx Hd.
  assert (E : Qeq_bool d 0 = false)
    by (destruct (Qeq_bool d 0) eqn:E; [apply Qeq_bool_iff in E; contradiction|reflexivity]).
  destruct x as [| |a|]; [contradiction| | |]; cbn.
  - unfold signedInf. destruct (xorb _ _); discriminate.
  - rewrite E. apply fin_number.
  - unfold signedInf. destruct (xorb _ _); discriminate.
Qed.

Lemma round_number (x : num) : isNumber x -> isNumber (round x).
Proof. destruct x; cbn; congruence. Qed.

Lemma clamp_between (lo hi : Q) (x : num) :
  (lo <= hi)%Q -> isNumber x -> between lo hi (clamp (Fin lo) (Fin hi) x).
Proof.
  intros Hle Hx. unfold clamp, between.
  destruct x as [| |q|]; [contradiction| | |].
  - cbn. destruct (Qltb lo hi) eqn:E; Qbools.
    + exists lo. repeat split; lra.
    + exists lo. repeat split; lra.
  - cbn. destruct (Qltb q hi) eqn:E1; cbn.
    + destruct (Qltb lo q) eqn:E2; Qbools; eexists; repeat split; try reflexivity; lra.
    + destruct (Qltb lo hi) eqn:E2; Qbools; eexists; repeat split; try reflexivity; lra.
  - cbn. destruct (Qltb lo hi) eqn:E; Qbools; eexists; repeat split; try reflexivity; lra.
Qed.

Lemma pow10_pos (d : nat) : (0 < pow10 d)%Z.
Proof. unfold pow10. apply Z.pow_pos_nonneg; lia. Qed.

(** Rounding to [d] decimals keeps a value inside integer bounds. *)
Lemma toFixed_between (d : nat) (B : Z) (x : num) :
  (0 <= B < 10 ^ 21)%Z ->
  between 0 (inject_Z B) x -> between 0 (inject_Z B) (toFixed d x).
Proof.
  intros HB (q & -> & Hlo & Hhi). unfold toFixed, fixedDigits.
  pose proof (pow10_pos d) as Hp.
  assert (HpQ : (0 < inject_Z (pow10 d))%Q)
    by (rewrite <- (Zlt_Qlt 0); exact Hp).
  assert (Habs : (Qabs q == q)%Q) by (apply Qabs_pos; exact Hlo).
  assert (HBQ : (inject_Z B < inject_Z (10 ^ 21))%Q)
    by (rewrite <- Zlt_Qlt; lia).
  destruct (Qle_bool (inject_Z (10 ^ 21)) (Qabs q)) eqn:Ebig.
  { Qbools. rewrite Habs in Ebig. lra. }
  destruct (Qltb q 0) eqn:Eneg; [Qbools; lra|].
  rewrite Habs.
  set (n := Qfloor (q * inject_Z (pow10 d) + (1 # 2))).
  assert (Hn0 : (0 <= n)%Z).
  { change 0%Z with (Qfloor 0). apply Qfloor_resp_le.
    assert (0 <= q * inject_Z (pow10 d))%Q by (apply Qmult_le_0_compat; lra). lra. }
  assert (HnB : (n <= B * pow10 d)%Z).
  { apply Z.lt_succ_r. rewrite Zlt_Qlt.
    apply Qle_lt_trans with (q * inject_Z (pow10 d) + (1 # 2))%Q; [apply Qfloor_le|].
    unfold Z.succ. rewrite inject_Z_plus, inject_Z_mult.
    assert (q * inject_Z (pow10 d) <= inject_Z B * inject_Z (pow10 d))%Q
      by (apply Qmult_le_compat_r; lra).
    change (inject_Z 1) with 1%Q. lra. }
  eexists. split; [reflexivity|]. split.
  - apply Qle_shift_div_l; [exact HpQ|]. rewrite Qmult_0_l.
    rewrite <- (Zle_Qle 0). exact Hn0.
  - apply Qle_shift_div_r; [exact HpQ|]. rewrite <- inject_Z_mult, <- Zle_Qle. exact HnB.
Qed.

Section ScoreRanges.

Variable StringToNumber : string -> num.
Variable exp_approx : Q -> Q.
Hypothesis exp_approx_nonneg : forall q : Q, (0 <= exp_approx q)%Q.

Local Abbreviation score := (scoreRow StringToNumber exp_approx).

Lemma Math_exp_cases (x : num) :
  isNumber x ->
  Math_exp exp_approx x = PInf
  \/ exists e : Q, Math_exp exp_approx x = Fin e /\ (0 <= e)%Q.
Proof.
  intros Hx. destruct x as [| |q|]; [contradiction| | |]; cbn.
  - right. exists 0%Q. split; [reflexivity|lra].
  - destruct (Qeq_bool q 0); [right; exists 1%Q; split; [reflexivity|lra]|].
    pose proof (exp_approx_nonneg q) as He. pose proof overflowAt_pos.
    destruct (fin_cases (exp_approx q)) as [[-> _]|[[-> _]|[_ Hneg]]];
      [right; eauto|left; reflexivity|lra].
  - left. reflexivity.
Qed.

Lemma sigmoid_between (x : num) : isNumber x -> between 0 1 (sigmoid exp_approx x).
Proof.
  intros Hx. unfold sigmoid, between.
  assert (Hneg : isNumber (neg x)) by (destruct x; cbn; congruence).
  destruct (Math_exp_cases _ Hneg) as [->|(e & -> & He)].
  - exists 0%Q. cbn. repeat split; lra.
  - cbn [add]. pose proof overflowAt_pos.
    destruct (fin_cases (1 + e)) as [[-> _]|[[-> _]|[_ Hbad]]]; [| |lra].
    + cbn [div]. destruct (Qeq_bool (1 + e) 0) eqn:E; Qbools; [lra|].
      assert (0 <= 1 / (1 + e))%Q by (apply Qle_shift_div_l; lra).
      assert (1 / (1 + e) <= 1)%Q by (apply Qle_shift_div_r; lra).
      rewrite fin_small by lra. eauto.
    + exists 0%Q. cbn. repeat split; lra.
Qed.

Lemma toNum_finite (value : option string) : finite (toNum StringToNumber value).
Proof. unfold toNum. destruct (isFinite _) eqn:E; [exact E|reflexivity]. Qed.

Lemma toBoolYes_finite (value : option string) : finite (toBoolYes value).
Proof. unfold toBoolYes. destruct (decide _); reflexivity. Qed.

Lemma featureValue_finite (row : RawRecord) (def : FeatureDef.t) :
  finite (featureValue StringToNumber row def).
Proof.
  unfold featureValue. repeat destruct (decide _);
    auto using toNum_finite, toBoolYes_finite, finite_Fin.
Qed.

Lemma featureVector_finite (row : RawRecord) :
  Forall finite (featureVector StringToNumber row).
Proof.
  unfold featureVector. apply Forall_map, Forall_forall.
  intros def _. apply featureValue_finite.
Qed.

Lemma featureVector_length (row : RawRecord) :
  length (featureVector StringToNumber row) = length featureDefs.
Proof. unfold featureVector. apply length_map. Qed.

Lemma at_finite (l : list num) (j : nat) :
  Forall finite l -> (j < length l)%nat -> finite (at_ l j).
Proof.
  intros Hl Hj. unfold at_.
  destruct (lookup_lt_is_Some_2 l j Hj) as [x Hx]. rewrite Hx. cbn.
  eapply Forall_lookup_1; eauto.
Qed.


(** The ranges of the derived fields, from a linear score that is a number. *)
Lemma ranges_of_logit (row : ModelRow.t) (logisticModel : TrainedModel.t) :
  isNumber (logitOf StringToNumber row logisticModel) ->
  isNumber (ModelRow.serviceCalls row) ->
  between 0 100 (ScoredRow.churnRisk (score row logisticModel))
  /\ between 20 99 (ScoredRow.satisfaction (score row logisticModel))
  /\ between 0 6 (ScoredRow.bufferingRate (score row logisticModel))
  /\ ScoredRow.satisfaction (score row logisticModel)
     = clamp (Fin 20) (Fin 99)
             (round (Fin 100
                     - ScoredRow.churnRisk (score row logisticModel) * Fin (7 # 10))%num).
Proof.
  intros Hz Hcalls. unfold logitOf in Hz. cbv zeta in Hz.
  unfold scoreRow. cbn [ScoredRow.churnRisk ScoredRow.satisfaction ScoredRow.bufferingRate].
  set (rawX := featureVector StringToNumber (ModelRow.raw row)) in *.
  set (zX := standardize _ _ rawX) in *.
  set (z := linear _ _ zX (length zX)) in *.
  assert (Hrisk : between 0 100 (toFixed 2 (sigmoid exp_approx z * Fin 100)%num)).
  { apply (toFixed_between 2 100); [lia|].
    destruct (sigmoid_between z Hz) as (p & -> & Hp0 & Hp1).
    cbn [mul]. rewrite fin_small by lra.
    eexists. split; [reflexivity|]. change (inject_Z 100) with 100%Q. lra. }
  split; [exact Hrisk|]. split; [|split; [|reflexivity]].
  - destruct Hrisk as (c & -> & _). apply clamp_between; [lra|].
    apply round_number, sub_finite_number; [reflexivity|]. apply fin_number.
  - apply (toFixed_between 2 6); [lia|].
    assert (Hc : between 0 1 (clamp01 (ModelRow.serviceCalls row / Fin 8)%num)).
    { apply (clamp_between 0 1); [lra|]. apply div_number_finite; [exact Hcalls|lra]. }
    destruct Hc as (c & -> & Hc0 & Hc1).
    cbn [mul]. rewrite fin_small by lra.
    eexists. split; [reflexivity|]. change (inject_Z 6) with 6%Q. lra.
Qed.


End ScoreRanges.

(** *** C7: the risk drivers *)

(** The order of numbers, away from [NaN]. *)

Lemma fin_gtb_zero (q : Q) : (fin q >? Fin 0)%num = Qltb 0 q.
Proof.
  pose proof overflowAt_pos as Hpos. symmetry.
  destruct (fin_cases q) as [[-> _]|[[-> H]|[-> H]]]; cbn.
  - reflexivity.
  - apply Qltb_true. lra.
  - apply Qltb_false. lra.
Qed.

Lemma sub_gtb (x y : num) :
  isNumber x -> isNumber y -> ((y - x) >? Fin 0)%num = (x <? y)%num.
Proof.
  intros Hx Hy. destruct x as [| |a|], y as [| |b|]; try contradiction; try reflexivity.
  change (Fin b - Fin a)%num with (fin (b + - a)). rewrite fin_gtb_zero.
  cbn. unfold Qltb. f_equal.
  destruct (Qle_bool (b + - a) 0) eqn:E1, (Qle_bool b a) eqn:E2; try reflexivity;
    Qbools; lra.
Qed.

Lemma ltb_false_cases (x y : num) :
  isNumber x -> isNumber y -> (x <? y)%num = false ->
  (y <? x)%num = true \/ eqb x y = true.
Proof.
  intros Hx Hy. destruct x as [| |a|], y as [| |b|]; try contradiction; cbn; auto;
    try discriminate.
  intros H. destruct (Qltb b a) eqn:E1; [auto|]. right. Qbools.
  apply Qeq_bool_iff. lra.
Qed.

Lemma ltb_ge_trans (x y z : num) :
  isNumber x -> isNumber y -> isNumber z ->
  (x <? y)%num = false -> (z <? y)%num = true -> (z <? x)%num = true.
Proof.
  intros Hx Hy Hz.
  destruct x as [| |a|], y as [| |b|], z as [| |c|]; try contradiction; cbn; auto;
    try discriminate.
  intros H1 H2. Qbools. apply Qltb_true. lra.
Qed.

Lemma ltb_ge_eq (x y z : num) :
  isNumber x -> isNumber y -> isNumber z ->
  (x <? y)%num = false -> eqb y z = true ->
  (z <? x)%num = true \/ eqb x z = true.
Proof.
  intros Hx Hy Hz.
  destruct x as [| |a|], y as [| |b|], z as [| |c|]; try contradiction; cbn; auto;
    try discriminate.
  intros H1 H2. Qbools. destruct (Qltb c a) eqn:E; [auto|]. right. Qbools.
  apply Qeq_bool_iff. lra.
Qed.


(** The sort under a change of representation of the elements. *)

Lemma sortInsert_map {A B : Type} (f : B -> A) (cmp : A -> A -> num) (x : B) (l : list B) :
  map f (sortInsert (fun a b => cmp (f a) (f b)) x l) = sortInsert cmp (f x) (map f l).
Proof.
  induction l as [|y l IH]; cbn [sortInsert map]; [reflexivity|].
  destruct (cmp (f x) (f y) >? Fin 0)%num; cbn [map]; [rewrite IH|]; reflexivity.
Qed.

Lemma Array_sort_map {A B : Type} (f : B -> A) (cmp : A -> A -> num) (l : list B) :
  map f (Array_sort (fun a b => cmp (f a) (f b)) l) = Array_sort cmp (map f l).
Proof.
  unfold Array_sort. induction l as [|x l IH]; cbn [foldr map]; [reflexivity|].
  rewrite sortInsert_map, IH. reflexivity.
Qed.

Lemma sortInsert_Permutation {A : Type} (cmp : A -> A -> num) (x : A) (l : list A) :
  Permutation (sortInsert cmp x l) (x :: l).
Proof.
  induction l as [|y l IH]; cbn [sortInsert]; [reflexivity|].
  destruct (cmp x y >? Fin 0)%num; [|reflexivity].
  rewrite IH. apply perm_swap.
Qed.

Lemma Array_sort_Permutation {A : Type} (cmp : A -> A -> num) (l : list A) :
  Permutation (Array_sort cmp l) l.
Proof.
  unfold Array_sort. induction l as [|x l IH]; cbn [foldr]; [reflexivity|].
  rewrite sortInsert_Permutation. constructor. exact IH.
Qed.

(** Sorting indices by decreasing magnitude. *)

Section Ranking.

Variable magnitude : nat -> num.

Local Abbreviation byIndex := (fun i j : nat => (magnitude j - magnitude i)%num).

Lemma sortInsert_ranked (x : nat) (l : list nat) :
  isNumber (magnitude x) ->
  Forall (fun y => isNumber (magnitude y)) l ->
  Forall (fun y => (x < y)%nat) l ->
  StronglySorted (outranks magnitude) l ->
  StronglySorted (outranks magnitude) (sortInsert byIndex x l).
Proof.
  intros Hx. induction l as [|y l IH]; intros Hnum Hlt Hsorted; cbn [sortInsert].
  - repeat constructor.
  - apply Forall_cons in Hnum as [Hy Hnum]. apply Forall_cons in Hlt as [Hxy Hlt].
    apply StronglySorted_inv in Hsorted as [Hsorted Hfirst].
    rewrite sub_gtb by assumption.
    destruct (magnitude x <? magnitude y)%num eqn:E.
    + constructor; [apply IH; assumption|].
      rewrite sortInsert_Permutation. constructor; [left; exact E|exact Hfirst].
    + constructor; [constructor; assumption|].
      constructor.
      * destruct (ltb_false_cases _ _ Hx Hy E) as [H|H]; [left; exact H|right; auto].
      * rewrite Forall_forall in *. intros z Hz.
        destruct (Hfirst z Hz) as [H|[H _]].
        -- left. eapply ltb_ge_trans; eauto.
        -- destruct (ltb_ge_eq _ _ _ Hx Hy (Hnum z Hz) E H) as [H'|H'];
             [left; exact H'|right; auto].
Qed.

Lemma Array_sort_ranked (l : list nat) :
  StronglySorted lt l ->
  Forall (fun y => isNumber (magnitude y)) l ->
  StronglySorted (outranks magnitude) (Array_sort byIndex l).
Proof.
  induction l as [|x l IH]; intros Hinc Hnum; [constructor|].
  apply StronglySorted_inv in Hinc as [Hinc Hlt].
  apply Forall_cons in Hnum as [Hx Hnum].
  change (Array_sort byIndex (x :: l)) with (sortInsert byIndex x (Array_sort byIndex l)).
  apply sortInsert_ranked.
  - exact Hx.
  - rewrite Array_sort_Permutation. exact Hnum.
  - rewrite Array_sort_Permutation. exact Hlt.
  - apply IH; assumption.
Qed.

End Ranking.

Lemma seq_increasing (a n : nat) : StronglySorted lt (seq a n).
Proof.
  revert a. induction n as [|n IH]; intros a; cbn; constructor; [apply IH|].
  apply Forall_forall. intros y Hy. apply elem_of_seq in Hy. lia.
Qed.






Section RiskDrivers.

Variable StringToNumber : string -> num.
Variable exp_approx : Q -> Q.

Local Abbreviation score := (scoreRow StringToNumber exp_approx).


End RiskDrivers.

(** ** The properties on the sample inputs *)

(** The stand-in for the exponential is never negative. *)
Lemma exp_dyadic_nonneg (q : Q) : (0 <= Builtins.exp_dyadic q)%Q.
Proof. unfold Builtins.exp_dyadic. apply Qpower_0_le. lra. Qed.





(** C4 on twenty ticks from the loaded sample state. *)
Lemma ticks_withinCaps_sample :
  withinCaps Sample.loaded
  /\ withinCaps (ticks Builtins.showInteger Sample.clock 20 Sample.loaded).
Proof.
  assert (H0 : withinCaps Sample.loaded) by (unfold withinCaps; cbn; lia).
  split; [exact H0|]. apply ticks_withinCaps. exact H0.
Defined.

(** C5 on a file system without files. *)
Lemma initData_missing_dataset_sample :
  Sample.noFiles (id "uploads/absent.csv"%string) = None
  /\ initData Builtins.decimalToNumber Builtins.exp_dyadic Builtins.sqrt_floor id
              Sample.noFiles "uploads/absent.csv" Sample.loaded
     = (Sample.loaded, false).
Proof.
  split; [reflexivity|]. apply initData_missing_dataset. reflexivity.
Defined.



(** C8, amended, on three draws from the two sample rows, cursor at 1. *)
Lemma nextBatch_round_robin_sample :
  [Sample.scoredKS; Sample.scoredOH] <> []
  /\ (1 < length [Sample.scoredKS; Sample.scoredOH])%nat
  /\ (snd (draws 3 [Sample.scoredKS; Sample.scoredOH] 1) < 2)%nat
  /\ fst (draws 3 [Sample.scoredKS; Sample.scoredOH] 1)
     = map (roundRobin [Sample.scoredKS; Sample.scoredOH] 1) (seq 0 (3 * batchSize)).
Proof.
  assert (Hne : [Sample.scoredKS; Sample.scoredOH] <> []) by discriminate.
  assert (Hc : (1 < length [Sample.scoredKS; Sample.scoredOH])%nat) by (cbn; lia).
  destruct (nextBatch_round_robin [Sample.scoredKS; Sample.scoredOH] 1 3 Hne Hc)
    as (Hcur & Hout & _).
  repeat split; assumption.
Defined.


(** ** Further facts and readings *)

(** The extractor always produces a service-call count that is a number. *)
Lemma toModelRow_serviceCalls_number (StringToNumber : string -> num)
    (row : RawRecord) (idx : nat) :
  isNumber (ModelRow.serviceCalls (toModelRow StringToNumber row idx)).
Proof. apply isNumber_finite. cbn. apply toNum_finite. Qed.

(** On the empty dataset a draw returns nothing and leaves the cursor alone. *)
Lemma draws_empty (n cursor : nat) : draws n [] cursor = ([], cursor).
Proof. induction n as [|n IH]; cbn; [reflexivity|]. rewrite IH. reflexivity. Qed.

Example hashText_reading : hashText "KS-415-0" = 1700482105.
Proof. reflexivity. Qed.

Example toFixed_tie_goes_up :
  same (toFixed 2 (Fin (12345 # 1000))) (Fin (1235 # 100)) = true
  /\ same (toFixed 2 (Fin (- (12345 # 1000)))) (Fin (- (1235 # 100))) = true
  /\ same (round (Fin (- (5 # 2)))) (Fin (- (2))) = true.
Proof. vm_compute. auto. Qed.

Example parseCsvLine_reading :
  parseCsvLine "KS, 415 ,382-4657,,False" = ["KS"; "415"; "382-4657"; EmptyString; "False"]%string.
Proof. reflexivity. Qed.

Example sample_rows :
  (ModelRow.platform Sample.rowOH, ModelRow.tier Sample.rowOH)
  = ("Netflix", "Mobile")%string
  /\ ModelRow.actualChurn Sample.rowOH = Fin 1
  /\ ModelRow.actualChurn Sample.rowKS = Fin 0
  /\ ModelRow.tier Sample.rowKS = "Premium"%string.
Proof. vm_compute. auto. Qed.

Example sample_scores :
  same (ScoredRow.churnRisk Sample.scoredOH) (Fin (3333 # 100)) = true
  /\ same (ScoredRow.satisfaction Sample.scoredOH) (Fin 77) = true
  /\ same (ScoredRow.bufferingRate Sample.scoredOH) (Fin 3) = true
  /\ map RiskDriver.feature (ScoredRow.riskDrivers Sample.scoredOH)
     = ["Service Calls"; "Voicemail Plan"; "Day Usage"; "International Plan";
        "Voicemail Usage"]%string
  /\ map RiskDriver.direction (ScoredRow.riskDrivers Sample.scoredOH)
     = ["up"; "down"; "down"; "down"; "up"]%string.
Proof. vm_compute. auto 10. Qed.

Example sample_tick :
  let after := fst (refreshState Builtins.showInteger (Sample.clock 0) Sample.loaded) in
  cursor after = 1%nat
  /\ length (streamWindow after) = 45%nat
  /\ bucketCounts [Sample.scoredKS; Sample.scoredOH] = [2; 0; 0]%nat
  /\ map LivePulse.id (Snapshot.liveFeed (state after)) = ["1767279600000-1"]%string.
Proof. vm_compute. auto. Qed.

(** The call [initData] makes, on a dataset without rows. *)
Example train_empty_reading :
  TrainedModel.weights
    (trainLogisticRegression Builtins.decimalToNumber Builtins.exp_dyadic
       Builtins.sqrt_floor [] 650 (Fin (7 # 100)) (Fin (7 # 10000)))
  = replicate 9 NaN.
Proof. vm_compute. reflexivity. Qed.

(** Cells large enough for a sum to overflow: the minutes of the row and
    the mean and deviation of the column are [Infinity], every weight is
    [NaN] after the first epoch, and so is the risk of the row. *)
Example train_overflow_reading :
  let trained :=
    trainLogisticRegression Builtins.decimalToNumber Builtins.exp_dyadic
      Builtins.sqrt_floor [Sample.rowHuge; Sample.rowHuge] 650
      (Fin (7 # 100)) (Fin (7 # 10000)) in
  ModelRow.minutes Sample.rowHuge = PInf
  /\ TrainedModel.means trained !! 4%nat = Some PInf
  /\ TrainedModel.stds trained !! 4%nat = Some PInf
  /\ TrainedModel.weights trained = replicate 9 NaN
  /\ ScoredRow.churnRisk
       (scoreRow Builtins.decimalToNumber Builtins.exp_dyadic Sample.rowHuge trained)
     = NaN.
Proof. vm_compute. auto. Qed.

(** ** Further properties of the engine *)

(** *** Feature extraction *)

Lemma hashStep_range (hash : Z) (c : ascii) :
  (0 <= (hash * 31 + Z.of_nat (nat_of_ascii c)) mod 2147483647 < 2147483647)%Z.
Proof. apply Z.mod_pos_bound. lia. Qed.

(** X1.  The hash of every text lies in [0, 2147483647). *)
Theorem hashText_range (text : string) :
  (0 <= hashText text < 2147483647)%Z.
Proof.
  unfold hashText.
  assert (H : forall (l : list ascii) (hash : Z),
             (0 <= hash < 2147483647)%Z ->
             (0 <= foldl (fun hash c =>
                            (hash * 31 + Z.of_nat (nat_of_ascii c)) mod 2147483647)
                         hash l < 2147483647)%Z).
  { induction l as [|c l IH]; intros hash Hh; cbn [foldl]; [exact Hh|].
    apply IH, hashStep_range. }
  apply H. lia.
Qed.

Lemma orElse_nonempty (v : option string) (d : string) :
  d <> EmptyString -> orElse v d <> EmptyString.
Proof.
  intros Hd. unfold orElse. destruct v as [s|]; [|exact Hd].
  destruct (decide (s = EmptyString)); assumption.
Qed.

Lemma append_nonempty_r (s t : string) : t <> EmptyString -> (s +:+ t) <> EmptyString.
Proof.
  intros Ht. destruct s as [|c s]; cbn; [exact Ht|discriminate].
Qed.

Section Extraction.

Variable StringToNumber : string -> num.

Local Abbreviation extract := (toModelRow StringToNumber).

(** X2.  The segment of every model row is one of the five platforms: the
    index [hash % platforms.length] never falls outside the array. *)
Theorem toModelRow_platform (row : RawRecord) (idx : nat) :
  ModelRow.platform (extract row idx) ∈ platforms.
Proof.
  cbn [toModelRow ModelRow.platform].
  set (h := hashText _).
  assert (Hi : (Z.to_nat (h mod Z.of_nat (length platforms)) < length platforms)%nat).
  { pose proof (Z.mod_pos_bound h (Z.of_nat (length platforms))) as Hb.
    cbn [platforms length] in *. lia. }
  destruct (lookup_lt_is_Some_2 _ _ Hi) as [p Hp]. rewrite Hp. cbn.
  eapply list_elem_of_lookup_2. exact Hp.
Qed.

(** X3.  Whatever the record holds, the model row built from it has a
    non-empty id and state, a tier among the three known ones, a label that
    is 0 or 1 and a finite service-call count; its minutes and its
    interaction pulse are numbers, never [NaN] (an infinity when the sum of
    the cells overflows). *)
Theorem toModelRow_well_formed (row : RawRecord) (idx : nat) :
  ModelRow.id (extract row idx) <> EmptyString
  /\ ModelRow.state (extract row idx) <> EmptyString
  /\ ModelRow.tier (extract row idx) ∈ ["Premium"; "Standard"; "Mobile"]%string
  /\ ModelRow.actualChurn (extract row idx) ∈ [Fin 0; Fin 1]
  /\ isNumber (ModelRow.minutes (extract row idx))
  /\ finite (ModelRow.serviceCalls (extract row idx))
  /\ isNumber (ModelRow.interactionPulse (extract row idx)).
Proof.
  assert (Hstate : orElse (row !! "state"%string) "NA" <> EmptyString)
    by (apply orElse_nonempty; discriminate).
  split; [|split; [|split; [|split; [|split; [|split]]]]].
  - cbn [toModelRow ModelRow.id]. apply orElse_nonempty.
    apply append_nonempty_r. discriminate.
  - exact Hstate.
  - cbn [toModelRow ModelRow.tier].
    destruct (_ >? _)%num; [set_solver|]. destruct (_ >? _)%num; set_solver.
  - cbn [toModelRow ModelRow.actualChurn]. destruct (decide _); set_solver.
  - cbn [toModelRow ModelRow.minutes].
    repeat (apply add_number_finite; [|apply toNum_finite]).
    apply isNumber_finite, toNum_finite.
  - apply toNum_finite.
  - cbn [toModelRow ModelRow.interactionPulse].
    apply round_number, div_number_finite; [|lra].
    repeat (apply add_number_finite; [|apply toNum_finite]).
    apply isNumber_finite, toNum_finite.
Qed.

(** X4.  The feature vector always has one finite entry per feature
    definition, and a feature whose column is missing from the record
    contributes 0. *)
Theorem featureVector_shape (row : RawRecord) :
  length (featureVector StringToNumber row) = length featureDefs
  /\ Forall finite (featureVector StringToNumber row)
  /\ (forall (j : nat) (def : FeatureDef.t),
         featureDefs !! j = Some def ->
         row !! FeatureDef.key def = None ->
         featureVector StringToNumber row !! j = Some (Fin 0)).
Proof.
  split; [apply featureVector_length|]. split; [apply featureVector_finite|].
  intros j def Hdef Hmiss. unfold featureVector.
  change (map ?f ?l) with (f <$> l). rewrite list_lookup_fmap, Hdef. cbn [fmap option_fmap option_map].
  f_equal. unfold featureValue. rewrite Hmiss.
  do 9 (destruct j as [|j]; [injection Hdef as <-; reflexivity|]).
  discriminate.
Qed.

End Extraction.

(** *** Model trainer *)

Lemma Forall_imap {A B : Type} (P : B -> Prop) (f : nat -> A -> B) (l : list A) :
  (forall j x, l !! j = Some x -> P (f j x)) -> Forall P (imap f l).
Proof.
  intros H. apply Forall_lookup. intros j y Hy.
  rewrite list_lookup_imap in Hy.
  destruct (l !! j) as [x|] eqn:E; [|discriminate].
  injection Hy as <-. apply H. exact E.
Qed.

Lemma sumBy_number {A : Type} (f : A -> num) (l : list A) :
  Forall (fun x => finite (f x)) l -> isNumber (sumBy f l).
Proof.
  unfold sumBy. intros Hl.
  assert (H : forall acc, isNumber acc ->
                isNumber (foldl (fun acc cur => (acc + f cur)%num) acc l)).
  { induction Hl as [|x l Hx _ IH]; intros acc Hacc; cbn [foldl]; [exact Hacc|].
    apply IH, add_number_finite; assumption. }
  apply H. discriminate.
Qed.

Section Trainer.

Variable StringToNumber : string -> num.
Variables exp_approx sqrt_approx : Q -> Q.

Local Abbreviation train := (trainLogisticRegression StringToNumber exp_approx sqrt_approx).

Lemma epochStep_length (Zs : list (list num)) (y : list num) (n : num) (m : nat)
    (lr l2 : num) (wb : list num * num) :
  length (fst (epochStep exp_approx Zs y n m lr l2 wb)) = length (fst wb).
Proof.
  unfold epochStep. destruct wb as [w b]. destruct (foldl _ _ _) as [dw db].
  cbn [fst]. apply length_imap.
Qed.

Lemma epochs_length (Zs : list (list num)) (y : list num) (n : num) (m : nat)
    (lr l2 : num) (epochs : nat) (wb : list num * num) :
  length (fst (Nat.iter epochs (epochStep exp_approx Zs y n m lr l2) wb))
  = length (fst wb).
Proof.
  induction epochs as [|e IH]; [reflexivity|].
  rewrite Nat.iter_succ, epochStep_length. exact IH.
Qed.

(** X5.  Whatever the rows, the epoch count and the rates, the trained
    model has one weight, one mean and one standard deviation per feature,
    and every standard deviation is a number other than zero: the [|| 1]
    fallback leaves nothing for the scorer to divide by zero with. *)
Theorem train_shape (rows : list ModelRow.t) (epochs : nat) (lr l2 : num) :
  length (TrainedModel.weights (train rows epochs lr l2)) = length featureDefs
  /\ length (TrainedModel.means (train rows epochs lr l2)) = length featureDefs
  /\ length (TrainedModel.stds (train rows epochs lr l2)) = length featureDefs
  /\ Forall (fun s => truthy s = true) (TrainedModel.stds (train rows epochs lr l2)).
Proof.
  unfold trainLogisticRegression.
  match goal with
  | |- context [Nat.iter epochs ?f ?wb] =>
      pose proof (epochs_length _ _ _ _ _ _ epochs wb : length (fst (Nat.iter epochs f wb)) = _) as Hw;
      destruct (Nat.iter epochs f wb) as [w b]
  end.
  cbn [TrainedModel.weights TrainedModel.means TrainedModel.stds fst] in *.
  split; [|split; [|split]].
  - exact Hw.
  - rewrite ?length_map, ?length_seq. reflexivity.
  - rewrite ?length_map, ?length_seq. reflexivity.
  - apply Forall_map, Forall_forall. intros j _.
    destruct (truthy (Math_sqrt _ _)) eqn:E; [exact E|reflexivity].
Qed.

End Trainer.

Section TrainerMeans.

Variable StringToNumber : string -> num.
Variables exp_approx sqrt_approx : Q -> Q.

Local Abbreviation train := (trainLogisticRegression StringToNumber exp_approx sqrt_approx).

(** X6.  Training on at least one row gives column means that are numbers,
    never [NaN]: every cell of the feature matrix is finite, so a column sum
    is finite or, on overflow, an infinity, and the row count it is divided
    by is not zero.  (Contrast with the empty row list, where every mean is
    [NaN].) *)
Theorem train_means_numbers (rows : list ModelRow.t) (epochs : nat) (lr l2 : num) :
  rows <> [] ->
  Forall isNumber (TrainedModel.means (train rows epochs lr l2)).
Proof.
  intros Hne. unfold trainLogisticRegression.
  destruct (Nat.iter epochs _ _) as [w b]. cbn [TrainedModel.means].
  apply Forall_map, Forall_forall. intros j Hj. apply elem_of_seq in Hj.
  apply div_number_finite.
  - apply sumBy_number. apply Forall_map, Forall_forall. intros row _.
    apply at_finite; [apply featureVector_finite|].
    rewrite featureVector_length. lia.
  - rewrite length_map. destruct rows as [|row rows]; [congruence|].
    unfold Qeq. cbn. lia.
Qed.

End TrainerMeans.

(** *** Scorer *)

(** The order of numbers under the arithmetic of the satisfaction score. *)







Section Satisfaction.

Variable StringToNumber : string -> num.
Variable exp_approx : Q -> Q.

Local Abbreviation score := (scoreRow StringToNumber exp_approx).


End Satisfaction.

(** *** Risk distribution *)

(** A number is in at most one band, and in one exactly when it lies in
    [0, 101). *)
Lemma band_of (row : ScoredRow.t) :
  ((if inBucket (Fin 0) (Fin 34) row then 1 else 0)
   + (if inBucket (Fin 34) (Fin 67) row then 1 else 0)
   + (if inBucket (Fin 67) (Fin 101) row then 1 else 0)
   = if inBucket (Fin 0) (Fin 101) row then 1 else 0)%nat.
Proof.
  unfold inBucket, geb, leb, ltb.
  destruct (ScoredRow.churnRisk row) as [| |q|]; try reflexivity.
  destruct (Qle_bool 0 q) eqn:E0, (Qltb q 34) eqn:E1, (Qle_bool 34 q) eqn:E2,
           (Qltb q 67) eqn:E3, (Qle_bool 67 q) eqn:E4, (Qltb q 101) eqn:E5;
    cbn; try reflexivity; exfalso; Qbools; lra.
Qed.

(** X8.  Whatever the risks, the three counts add up to the number of rows
    whose risk lies in [0, 101): a row whose risk is [NaN], negative, or 101
    and more is counted in no band. *)
Theorem getRiskDistribution_total (rows : list ScoredRow.t) :
  exists low medium high : nat,
    bucketCounts rows = [low; medium; high]
    /\ (low + medium + high = countIf (inBucket (Fin 0) (Fin 101)) rows)%nat.
Proof.
  rewrite bucketCounts_eq. eexists _, _, _. split; [reflexivity|].
  induction rows as [|row rows IH]; [reflexivity|].
  rewrite !countIf_cons. pose proof (band_of row). lia.
Qed.

(** *** Segment summaries *)

Lemma summarizePlatform_activeUsers (rows : list ScoredRow.t) (platform : string) :
  PlatformMetric.activeUsers (summarizePlatform rows platform)
  = countIf (fun row => bool_decide (ScoredRow.platform row = platform)) rows.
Proof.
  unfold summarizePlatform, countIf.
  destruct (length (List.filter _ rows) =? 0)%nat eqn:E; cbn.
  - apply Nat.eqb_eq in E. symmetry. exact E.
  - reflexivity.
Qed.

(** X9.  Every configured platform gets a summary, an all-zero one when no
    row of the window belongs to it, and when every row belongs to one of
    the platforms the active-user counts add up to the window size. *)
Theorem summarizePlatform_covers (rows : list ScoredRow.t) :
  map PlatformMetric.name (map (summarizePlatform rows) platforms) = platforms
  /\ (forall platform : string,
        countIf (fun row => bool_decide (ScoredRow.platform row = platform)) rows = 0%nat ->
        summarizePlatform rows platform
        = PlatformMetric.mk platform 0 (Fin 0) (Fin 0) (Fin 0) (Fin 0))
  /\ (Forall (fun row => ScoredRow.platform row ∈ platforms) rows ->
      sum_list (map PlatformMetric.activeUsers (map (summarizePlatform rows) platforms))
      = length rows).
Proof.
  split; [|split].
  - cbn [platforms map]. unfold summarizePlatform.
    repeat match goal with
           | |- context [if ?c then _ else _] => destruct c
           end; reflexivity.
  - intros platform Hnone. unfold summarizePlatform. unfold countIf in Hnone.
    rewrite Hnone. reflexivity.
  - intros Hrows. rewrite map_map.
    rewrite (map_ext _ _ (summarizePlatform_activeUsers rows)).
    induction Hrows as [|row rows Hrow _ IH]; [reflexivity|].
    cbn [platforms map sum_list sum_list_with] in *. rewrite !countIf_cons.
    cbn [length].
    assert (H1 : ((if bool_decide (ScoredRow.platform row = "Netflix"%string) then 1 else 0)
                  + (if bool_decide (ScoredRow.platform row = "Prime Video"%string) then 1 else 0)
                  + (if bool_decide (ScoredRow.platform row = "Disney+ Hotstar"%string) then 1 else 0)
                  + (if bool_decide (ScoredRow.platform row = "Crunchyroll"%string) then 1 else 0)
                  + (if bool_decide (ScoredRow.platform row = "Aha"%string) then 1 else 0)
                  = 1)%nat).
    { unfold platforms in Hrow.
      repeat (apply elem_of_cons in Hrow as [->|Hrow]; [reflexivity|]).
      apply elem_of_nil in Hrow. contradiction. }
    unfold id in *. lia.
Qed.

(** *** Evaluator *)

Lemma ratio_between (p q : Q) :
  (0 <= p)%Q -> (p <= q)%Q -> (0 < q)%Q -> between 0 1 (Fin p / Fin q)%num.
Proof.
  intros Hp Hpq Hq. cbn [div]. destruct (Qeq_bool q 0) eqn:E; Qbools; [lra|].
  assert (0 <= p / q)%Q by (apply Qle_shift_div_l; lra).
  assert (p / q <= 1)%Q by (apply Qle_shift_div_r; lra).
  rewrite fin_small by lra. eexists. split; [reflexivity|]. split; assumption.
Qed.

Lemma percent_between (x : num) :
  between 0 1 x -> between 0 100 (toFixed 2 (x * Fin 100)%num).
Proof.
  intros (p & -> & Hp0 & Hp1). apply (toFixed_between 2 100); [lia|].
  cbn [mul]. rewrite fin_small by lra.
  eexists. split; [reflexivity|]. change (inject_Z 100) with 100%Q. lra.
Qed.

Lemma ofNat_nonneg (n : nat) : (0 <= inject_Z (Z.of_nat n))%Q.
Proof. rewrite <- (Zle_Qle 0). lia. Qed.

Lemma countIf_disjoint {A : Type} (p q : A -> bool) (l : list A) :
  (forall x, p x && q x = false) -> (countIf p l + countIf q l <= length l)%nat.
Proof.
  intros Hpq. induction l as [|x l IH]; [cbn; lia|].
  rewrite !countIf_cons. cbn [length]. specialize (Hpq x).
  destruct (p x), (q x); cbn in *; try discriminate; lia.
Qed.

Lemma rate_between (a b : nat) :
  between 0 1
    (if (0 <? a + b)%nat
     then (JsNum.ofNat a / JsNum.ofNat (a + b))%num else Fin 0).
Proof.
  destruct (0 <? a + b)%nat eqn:E.
  - apply Nat.ltb_lt in E. unfold JsNum.ofNat. apply ratio_between.
    + apply ofNat_nonneg.
    + rewrite <- Zle_Qle. lia.
    + rewrite <- (Zlt_Qlt 0). lia.
  - exists 0%Q. repeat split; lra.
Qed.

Lemma f1_between (p r : num) :
  between 0 1 p -> between 0 1 r ->
  between 0 1
    (if (p + r >? Fin 0)%num then (Fin 2 * p * r / (p + r))%num else Fin 0).
Proof.
  intros (a & -> & Ha0 & Ha1) (b & -> & Hb0 & Hb1). cbn [add mul].
  rewrite (fin_small (a + b)) by lra. rewrite (fin_small (2 * a)) by lra.
  cbn [gtb ltb mul]. rewrite (fin_small (2 * a * b)) by nra.
  destruct (Qltb 0 _) eqn:E.
  - Qbools. apply ratio_between; [| |lra].
    + nra.
    + nra.
  - exists 0%Q. repeat split; lra.
Qed.

(** X10.  Whatever the rows (risks and labels that are not numbers
    included), the evaluator reports the threshold 50 and four metrics that
    are percentages in [0, 100]; no metric is ever [NaN], the denominators
    being guarded. *)
Theorem evaluateModel_percentages (rows : list ScoredRow.t) :
  threshold (evaluateModel rows) = Fin 50
  /\ between 0 100 (accuracy (evaluateModel rows))
  /\ between 0 100 (precision (evaluateModel rows))
  /\ between 0 100 (recall (evaluateModel rows))
  /\ between 0 100 (f1 (evaluateModel rows)).
Proof.
  unfold evaluateModel. cbn [threshold accuracy precision recall f1].
  set (tp := countIf (fun row => (ScoredRow.churnRisk row >=? Fin 50)%num
                                && eqb (ScoredRow.actualChurn row) (Fin 1)) rows).
  set (tn := countIf (fun row => negb (ScoredRow.churnRisk row >=? Fin 50)%num
                                && eqb (ScoredRow.actualChurn row) (Fin 0)) rows).
  split; [reflexivity|]. split; [|split; [|split]].
  - apply percent_between.
    assert (Hle : (tp + tn <= length rows)%nat).
    { apply countIf_disjoint. intros row.
      destruct (_ >=? _)%num, (eqb (ScoredRow.actualChurn row) (Fin 1)); reflexivity. }
    clearbody tp tn. unfold JsNum.ofNat. destruct (length rows =? 0)%nat eqn:E.
    + apply Nat.eqb_eq in E.
      apply ratio_between; [apply ofNat_nonneg| |lra].
      change 1%Q with (inject_Z 1). rewrite <- Zle_Qle. lia.
    + apply Nat.eqb_neq in E. apply ratio_between; [apply ofNat_nonneg| |].
      * rewrite <- Zle_Qle. lia.
      * rewrite <- (Zlt_Qlt 0). lia.
  - apply percent_between, rate_between.
  - apply percent_between, rate_between.
  - apply percent_between, f1_between; apply rate_between.
Qed.

Lemma countIf_all {A : Type} (p : A -> bool) (l : list A) :
  Forall (fun x => p x = true) l -> countIf p l = length l.
Proof.
  induction 1 as [|x l Hx _ IH]; [reflexivity|].
  rewrite countIf_cons, Hx, IH. reflexivity.
Qed.

Lemma countIf_split {A : Type} (p q : A -> bool) (l : list A) :
  (forall x, p x && q x = false) ->
  (countIf (fun x => p x || q x) l = countIf p l + countIf q l)%nat.
Proof.
  intros Hpq. induction l as [|x l IH]; [reflexivity|].
  rewrite !countIf_cons, IH. specialize (Hpq x).
  destruct (p x), (q x); cbn in *; try discriminate; lia.
Qed.

Lemma Qfloor_bounds (x : Q) (n : Z) :
  (inject_Z n <= x)%Q -> (x < inject_Z (n + 1))%Q -> Qfloor x = n.
Proof.
  intros Hlo Hhi. apply Z.le_antisymm.
  - apply Z.lt_succ_r. rewrite Zlt_Qlt.
    eapply Qle_lt_trans; [apply Qfloor_le|exact Hhi].
  - rewrite <- (Qfloor_Z n). apply Qfloor_resp_le. exact Hlo.
Qed.

(** Rounding to [d] decimals leaves a non-negative integer value alone. *)
Lemma toFixed_integer (d : nat) (k : Z) (q : Q) :
  (0 <= k < 10 ^ 21)%Z -> (q == inject_Z k)%Q ->
  exists q' : Q, toFixed d (Fin q) = Fin q' /\ (q' == inject_Z k)%Q.
Proof.
  intros Hk Hq. unfold toFixed, fixedDigits.
  pose proof (pow10_pos d) as Hp.
  assert (HpQ : (0 < inject_Z (pow10 d))%Q) by (rewrite <- (Zlt_Qlt 0); exact Hp).
  assert (Hk0 : (0 <= inject_Z k)%Q) by (rewrite <- (Zle_Qle 0); lia).
  assert (Hk1 : (inject_Z k < inject_Z (10 ^ 21))%Q) by (rewrite <- Zlt_Qlt; lia).
  assert (Habs : (Qabs q == q)%Q) by (apply Qabs_pos; lra).
  destruct (Qle_bool (inject_Z (10 ^ 21)) (Qabs q)) eqn:Ebig; [Qbools; lra|].
  destruct (Qltb q 0) eqn:Eneg; [Qbools; lra|].
  assert (Hfloor : Qfloor (Qabs q * inject_Z (pow10 d) + (1 # 2)) = (k * pow10 d)%Z).
  { apply Qfloor_bounds.
    - rewrite inject_Z_mult. rewrite Habs, Hq. lra.
    - rewrite inject_Z_plus, inject_Z_mult. rewrite Habs, Hq.
      change (inject_Z 1) with 1%Q. lra. }
  rewrite Hfloor. eexists. split; [reflexivity|].
  rewrite inject_Z_mult. field. lra.
Qed.

(** X11.  On a non-empty set of rows whose every prediction (risk at
    least 50 or not) matches its label, the accuracy is 100. *)
Theorem evaluateModel_all_correct (rows : list ScoredRow.t) :
  rows <> [] ->
  Forall (fun row =>
            eqb (ScoredRow.actualChurn row)
                (if (ScoredRow.churnRisk row >=? Fin 50)%num then Fin 1 else Fin 0)
            = true) rows ->
  exists q : Q, accuracy (evaluateModel rows) = Fin q /\ (q == 100)%Q.
Proof.
  intros Hne Hall. unfold evaluateModel. cbn [accuracy].
  set (tp := countIf (fun row => (ScoredRow.churnRisk row >=? Fin 50)%num
                                && eqb (ScoredRow.actualChurn row) (Fin 1)) rows).
  set (tn := countIf (fun row => negb (ScoredRow.churnRisk row >=? Fin 50)%num
                                && eqb (ScoredRow.actualChurn row) (Fin 0)) rows).
  assert (Hsum : (tp + tn = length rows)%nat).
  { unfold tp, tn. rewrite <- countIf_split.
    - apply countIf_all. eapply Forall_impl; [exact Hall|]. intros row Hrow. cbn beta in *.
      destruct (_ >=? _)%num; cbn; rewrite Hrow; reflexivity.
    - intros row.
      destruct (_ >=? _)%num, (eqb (ScoredRow.actualChurn row) (Fin 1)); reflexivity. }
  clearbody tp tn.
  assert (Hlen : length rows <> 0%nat) by (destruct rows; cbn; congruence).
  apply Nat.eqb_neq in Hlen as Hlen'. rewrite Hlen', Hsum.
  unfold JsNum.ofNat. cbn [div].
  assert (Hpos : (0 < inject_Z (Z.of_nat (length rows)))%Q)
    by (rewrite <- (Zlt_Qlt 0); lia).
  destruct (Qeq_bool (inject_Z (Z.of_nat (length rows))) 0) eqn:E; Qbools; [lra|].
  assert (Hone : (inject_Z (Z.of_nat (length rows)) / inject_Z (Z.of_nat (length rows))
                  == 1)%Q) by (field; lra).
  rewrite fin_small by (rewrite Hone; lra). cbn [mul].
  rewrite fin_small by (rewrite Hone; lra).
  assert (Hval : (inject_Z (Z.of_nat (length rows)) / inject_Z (Z.of_nat (length rows))
                  * 100 == 100)%Q) by (rewrite Hone; lra).
  apply (toFixed_integer 2 100); [lia|exact Hval].
Qed.

(** *** Dataset loader *)

Lemma list_ascii_of_string_app (s t : string) :
  list_ascii_of_string (s +:+ t) = list_ascii_of_string s ++ list_ascii_of_string t.
Proof.
  induction s as [|c s IH]; [reflexivity|].
  change (list_ascii_of_string (String c s +:+ t))
    with (c :: list_ascii_of_string (s +:+ t)).
  rewrite IH. reflexivity.
Qed.

Lemma trimChars_of_string (s : string) : trimChars (list_ascii_of_string s) = trim s.
Proof. unfold trimChars. rewrite string_of_list_ascii_of_string. reflexivity. Qed.

Lemma parseCsvLoop_plain (l rest value : list ascii) (out : list string) :
  Forall (fun c => c <> quote /\ c <> comma) l ->
  parseCsvLoop (l ++ rest) value false out = parseCsvLoop rest (value ++ l) false out.
Proof.
  intros Hl. revert value. induction Hl as [|c l [Hq Hc] _ IH]; intros value.
  - rewrite app_nil_r. reflexivity.
  - cbn [app parseCsvLoop].
    destruct (decide (c = quote)) as [|_]; [contradiction|].
    rewrite bool_decide_eq_false_2 by exact Hc. cbn [andb].
    rewrite IH, <- app_assoc. reflexivity.
Qed.

Lemma parseCsvLoop_quoted (l value : list ascii) (out : list string) :
  Forall (fun c => c <> quote) l ->
  parseCsvLoop (l ++ [quote]) value true out = out ++ [trimChars (value ++ l)].
Proof.
  intros Hl. revert value. induction Hl as [|c l Hq _ IH]; intros value.
  - rewrite app_nil_r. reflexivity.
  - cbn [app parseCsvLoop].
    destruct (decide (c = quote)) as [|_]; [contradiction|].
    rewrite andb_false_r, IH, <- app_assoc. reflexivity.
Qed.

Lemma parseCsvLoop_fields (fields : list string) :
  fields <> [] -> Forall plainField fields ->
  forall out : list string,
    parseCsvLoop (list_ascii_of_string (joinFields fields)) [] false out
    = out ++ map trim fields.
Proof.
  intros Hne Hplain. induction Hplain as [|f fields Hf Hfields IH]; [contradiction|].
  intros out. destruct fields as [|f' fields].
  - cbn [joinFields String.concat map].
    rewrite <- (app_nil_r (list_ascii_of_string f)), parseCsvLoop_plain by exact Hf.
    cbn [parseCsvLoop app]. rewrite trimChars_of_string. reflexivity.
  - change (joinFields (f :: f' :: fields))
      with (f +:+ String comma (joinFields (f' :: fields))).
    rewrite list_ascii_of_string_app, parseCsvLoop_plain by exact Hf.
    cbn [list_ascii_of_string parseCsvLoop app].
    change (parseCsvLoop (comma :: ?r) ?v false ?o)
      with (parseCsvLoop r [] false (o ++ [trimChars v])).
    rewrite IH by discriminate.
    rewrite trimChars_of_string, <- app_assoc. reflexivity.
Qed.

(** X12.  A line made of cells without quotes or commas, joined by commas,
    parses back into those cells, each trimmed. *)
Theorem parseCsvLine_joinFields (fields : list string) :
  fields <> [] -> Forall plainField fields ->
  parseCsvLine (joinFields fields) = map trim fields.
Proof.
  intros Hne Hplain. unfold parseCsvLine.
  rewrite parseCsvLoop_fields by assumption. reflexivity.
Qed.

(** X13.  A cell written between quotes is read as one cell, commas
    included, with the quotes removed. *)
Theorem parseCsvLine_quoted (s : string) :
  quoteFree s -> parseCsvLine (quoted s) = [trim s].
Proof.
  intros Hs. unfold parseCsvLine, quoted.
  cbn [list_ascii_of_string]. rewrite list_ascii_of_string_app.
  cbn [list_ascii_of_string].
  assert (Hstart : forall rest : list ascii,
             rest <> [] ->
             parseCsvLoop (quote :: rest) [] false [] = parseCsvLoop rest [] true []).
  { intros rest Hrest. destruct rest as [|c' rest']; [contradiction|]. reflexivity. }
  rewrite Hstart by (destruct (list_ascii_of_string s); discriminate).
  rewrite parseCsvLoop_quoted by exact Hs.
  cbn [app]. rewrite trimChars_of_string. reflexivity.
Qed.

Lemma foldl_assign_columns (cell : nat -> string) (l : list (nat * string))
    (record : RawRecord) (k : string) :
  is_Some (foldl (fun (record : RawRecord) (h : nat * string) =>
                    assign record (snd h) (cell (fst h))) record l !! k)
  <-> is_Some (record !! k) \/ (k ∈ map snd l /\ k <> "__proto__"%string).
Proof.
  revert record. induction l as [|h l IH]; intros record; cbn [foldl map].
  - rewrite elem_of_nil. tauto.
  - rewrite IH, elem_of_cons. unfold assign.
    destruct (decide (snd h = "__proto__"%string)) as [Hp|Hp].
    + intuition congruence.
    + rewrite lookup_insert_is_Some.
      destruct (decide (snd h = k)) as [<-|Hne]; intuition congruence.
Qed.

Lemma imap_pair_snd {A : Type} (l : list A) : map snd (imap pair l) = l.
Proof.
  assert (H : forall (f : nat -> nat), map snd (imap (fun i x => (f i, x)) l) = l).
  { induction l as [|x l IH]; intros f; cbn; [reflexivity|].
    f_equal. apply (IH (fun i => f (S i))). }
  apply (H (fun i => i)).
Qed.

Section Loader.

Variable resolve : string -> string.

Local Abbreviation load := (loadDataset resolve).

(** X14.  A file with at least one non-empty line loads into one record
    per further non-empty line, and every record has exactly the columns
    named by the cells of the first line, the name [__proto__] apart, under
    which no column is ever created: a line with fewer cells than the header
    still defines every column, and cells beyond the header are dropped. *)
Theorem loadDataset_columns (fs : FileSystem) (csvPath content first : string)
    (others : list string) :
  fs (resolve csvPath) = Some (RegularFile content) ->
  datasetLines content = first :: others ->
  exists records : list RawRecord,
    load fs csvPath = inr records
    /\ length records = length others
    /\ Forall (fun record : RawRecord =>
                 forall k : string,
                   is_Some (record !! k)
                   <-> k ∈ parseCsvLine first /\ k <> "__proto__"%string)
              records.
Proof.
  intros Hfile Hlines. unfold loadDataset. rewrite Hfile, Hlines.
  eexists. split; [reflexivity|]. split; [apply length_map|].
  apply Forall_map, Forall_forall. intros line _ k.
  rewrite (foldl_assign_columns
             (fun i => orElse (parseCsvLine line !! i) EmptyString)).
  rewrite imap_pair_snd, lookup_empty. split; [intros [[? [=]]|?]; assumption|auto].
Qed.

End Loader.

Section Reloads.

Variable StringToNumber : string -> num.
Variables exp_approx sqrt_approx : Q -> Q.
Variable resolve : string -> string.

Local Abbreviation reload :=
  (initData StringToNumber exp_approx sqrt_approx resolve).

(** X15.  A dataset path that exists but cannot be read as a file, or whose
    file holds nothing but whitespace, makes the reload fail like a missing
    one: [initData] returns [false] and every variable keeps its value. *)
Theorem initData_blank_dataset (fs : FileSystem) (csvPath : string) (sv : Server) :
  fs (resolve csvPath) = Some Unreadable
  \/ (exists content : string,
        fs (resolve csvPath) = Some (RegularFile content)
        /\ trim content = EmptyString) ->
  reload fs csvPath sv = (sv, false).
Proof.
  intros [H|(content & H & Hblank)]; unfold initData, loadDataset; rewrite H.
  - reflexivity.
  - unfold datasetLines. rewrite Hblank. reflexivity.
Qed.

(** X16.  A dataset with a header line and no rows loads successfully: the
    reload returns [true] with no mapped row, a row count of 0, the cursor
    at 0, empty windows, and a stored model whose weights and bias are
    [NaN]. *)
Theorem initData_no_rows (fs : FileSystem) (csvPath : string) (sv : Server) :
  loadDataset resolve fs csvPath = inr [] ->
  snd (reload fs csvPath sv) = true
  /\ mappedRows (fst (reload fs csvPath sv)) = []
  /\ Snapshot.datasetInfo (state (fst (reload fs csvPath sv))) = mkDatasetInfo csvPath 0
  /\ cursor (fst (reload fs csvPath sv)) = 0%nat
  /\ streamWindow (fst (reload fs csvPath sv)) = []
  /\ (exists logisticModel : TrainedModel.t,
        model (fst (reload fs csvPath sv)) = Some logisticModel
        /\ TrainedModel.weights logisticModel = replicate 9 NaN
        /\ TrainedModel.bias logisticModel = NaN).
Proof.
  intros Hload. unfold initData. rewrite Hload.
  cbn [imap map fst snd mappedRows state Snapshot.datasetInfo cursor streamWindow model length].
  repeat split.
  eexists. split; [reflexivity|].
  unfold trainLogisticRegression.
  change (map (fun row => featureVector StringToNumber (ModelRow.raw row)) [])
    with (@nil (list num)).
  cbn [map length standardize].
  change 650%nat with (S 649).
  rewrite epochs_empty. split; reflexivity.
Qed.

End Reloads.

(** *** Ticks, reloads and requests *)

Lemma allDefined_Some {A : Type} (l : list (option A)) (rows : list A) :
  allDefined l = Some rows <-> l = map Some rows.
Proof.
  revert rows. induction l as [|[x|] l IH]; intros rows; cbn.
  - split; [intros [= <-]; reflexivity|]. destruct rows; [reflexivity|discriminate].
  - destruct (allDefined l) as [rest|] eqn:E; cbn.
    + split.
      * intros [= <-]. cbn. f_equal. apply IH. reflexivity.
      * destruct rows as [|y rows]; [discriminate|]. intros [= -> H].
        apply IH in H. injection H as ->. reflexivity.
    + split; [discriminate|]. destruct rows as [|y rows]; [discriminate|].
      intros [= -> H]. apply IH in H. discriminate.
  - split; [discriminate|]. destruct rows; discriminate.
Qed.

Lemma allDefined_Forall {A : Type} (P : A -> Prop) (l : list (option A)) :
  Forall (fun entry => exists x, entry = Some x /\ P x) l ->
  exists rows, allDefined l = Some rows /\ l = map Some rows /\ Forall P rows.
Proof.
  induction 1 as [|entry l (x & -> & Hx) _ (rows & Hd & Hl & Hrows)].
  - exists []. repeat split. constructor.
  - exists (x :: rows). cbn. rewrite Hd. cbn. split; [reflexivity|].
    split; [rewrite Hl; reflexivity|]. constructor; assumption.
Qed.

Lemma nextBatchLoop_length (mappedRows : list ScoredRow.t) (size : nat) :
  forall (out : list (option ScoredRow.t)) (cursor : nat),
    length (fst (nextBatchLoop mappedRows size out cursor)) = (length out + size)%nat.
Proof.
  induction size as [|size IH]; intros out cursor; cbn [nextBatchLoop fst].
  - lia.
  - rewrite IH, length_app. cbn. lia.
Qed.

Lemma nextBatch_length (size : nat) (mappedRows : list ScoredRow.t) (cursor : nat) :
  length (fst (nextBatch size mappedRows cursor))
  = if (length mappedRows =? 0)%nat then 0%nat else size.
Proof.
  unfold nextBatch. destruct (length mappedRows =? 0)%nat; [reflexivity|].
  apply nextBatchLoop_length.
Qed.

(** On a well-formed state the batch holds rows of the dataset only, and the
    cursor stays inside the dataset. *)
Lemma nextBatch_wellFormed (sv : Server) :
  wellFormed sv ->
  Forall (fun entry => exists row, entry = Some row /\ row ∈ mappedRows sv)
         (fst (nextBatch batchSize (mappedRows sv) (cursor sv)))
  /\ (mappedRows sv <> [] ->
      (snd (nextBatch batchSize (mappedRows sv) (cursor sv)) < length (mappedRows sv))%nat).
Proof.
  intros [Hcur _]. destruct (mappedRows sv) as [|r rs] eqn:E.
  - cbn. split; [constructor|congruence].
  - rewrite nextBatch_spec by (auto; discriminate). cbn [fst snd]. split.
    + apply Forall_map, Forall_forall. intros k _. unfold roundRobin.
      assert (Hk : ((cursor sv + k) mod length (r :: rs) < length (r :: rs))%nat)
        by (apply Nat.mod_upper_bound; cbn; lia).
      destruct (lookup_lt_is_Some_2 _ _ Hk) as [row Hrow].
      exists row. split; [exact Hrow|]. eapply list_elem_of_lookup_2. exact Hrow.
    + intros _. apply Nat.mod_upper_bound. cbn. lia.
Qed.

Lemma sliceLast_Forall {A : Type} (P : A -> Prop) (k : nat) (l : list A) :
  Forall P l -> Forall P (sliceLast k l).
Proof. unfold sliceLast. apply Forall_drop. Qed.

Section Server.

Variable StringToNumber : string -> num.
Variables exp_approx sqrt_approx : Q -> Q.
Variable showNum : num -> string.
Variable resolve : string -> string.

Local Abbreviation tick := (refreshState showNum).
Local Abbreviation reload := (initData StringToNumber exp_approx sqrt_approx resolve).
Local Abbreviation handle :=
  (serve StringToNumber exp_approx sqrt_approx showNum resolve).
Local Abbreviation runAll :=
  (run StringToNumber exp_approx sqrt_approx showNum resolve).
Local Abbreviation start :=
  (boot StringToNumber exp_approx sqrt_approx showNum resolve).

Lemma refreshState_mappedRows (now : Clock) (sv : Server) :
  mappedRows (fst (tick now sv)) = mappedRows sv.
Proof.
  unfold refreshState. destruct (nextBatch _ _ _) as [batch cursor'].
  destruct (allDefined _); [|reflexivity].
  destruct (last batch) as [[row|]|]; reflexivity.
Qed.

Lemma refreshState_streamWindow (now : Clock) (sv : Server) :
  streamWindow (fst (tick now sv))
  = sliceLast 620 (streamWindow sv
                   ++ fst (nextBatch batchSize (mappedRows sv) (cursor sv))).
Proof.
  unfold refreshState. destruct (nextBatch _ _ _) as [batch cursor'].
  destruct (allDefined _); [|reflexivity].
  destruct (last batch) as [[row|]|]; reflexivity.
Qed.

Lemma refreshState_cursor (now : Clock) (sv : Server) :
  cursor (fst (tick now sv)) = snd (nextBatch batchSize (mappedRows sv) (cursor sv)).
Proof.
  unfold refreshState. destruct (nextBatch _ _ _) as [batch cursor'].
  destruct (allDefined _); [|reflexivity].
  destruct (last batch) as [[row|]|]; reflexivity.
Qed.

(** A tick on a well-formed state publishes a snapshot and leaves a
    well-formed state. *)
Lemma refreshState_wellFormed (now : Clock) (sv : Server) :
  wellFormed sv ->
  wellFormed (fst (tick now sv))
  /\ snd (tick now sv) = Emitted (state (fst (tick now sv))).
Proof.
  intros Hwf. pose proof (nextBatch_wellFormed sv Hwf) as [Hbatch Hcur].
  destruct Hwf as [_ Hwin].
  assert (Hwin' : Forall (fun entry => exists row, entry = Some row /\ row ∈ mappedRows sv)
                         (sliceLast 620 (streamWindow sv
                            ++ fst (nextBatch batchSize (mappedRows sv) (cursor sv))))).
  { apply sliceLast_Forall, Forall_app. split; assumption. }
  split.
  - unfold wellFormed.
    rewrite refreshState_mappedRows, refreshState_cursor, refreshState_streamWindow.
    split; assumption.
  - unfold refreshState.
    destruct (nextBatch _ _ _) as [batch cursor'] eqn:Eb. cbn [fst snd] in *.
    destruct (allDefined_Forall _ _ Hwin') as (window & -> & _ & _).
    destruct (last batch) as [[row|]|] eqn:El; try reflexivity.
    exfalso. apply last_Some in El as [front ->].
    apply Forall_app in Hbatch as [_ Hlast].
    apply Forall_cons in Hlast as [(row & [=] & _) _].
Qed.

Lemma initData_wellFormed (fs : FileSystem) (csvPath : string) (sv : Server) :
  wellFormed sv -> wellFormed (fst (reload fs csvPath sv)).
Proof.
  intros Hwf. unfold initData. destruct (loadDataset _ _ _); [exact Hwf|].
  unfold wellFormed. cbn [fst mappedRows cursor streamWindow]. split; [|constructor].
  intros Hne. destruct (map _ _); [contradiction|cbn; lia].
Qed.

Lemma initialServer_wellFormed (datasetPath startedAt : string) :
  wellFormed (initialServer datasetPath startedAt).
Proof. split; [intros H; contradiction|constructor]. Qed.

Lemma serve_wellFormed (request : Request) (sv : Server) :
  wellFormed sv ->
  wellFormed (fst (handle request sv))
  /\ snd (handle request sv) <> Ticked TypeError.
Proof.
  intros Hwf. destruct request as [fs [file|]| | |now]; cbn [serve postUpload].
  - pose proof (initData_wellFormed fs file sv Hwf) as H.
    destruct (reload fs file sv) as [sv' ok]. cbn [fst] in H.
    destruct ok; cbn; split; solve [assumption|discriminate].
  - cbn. split; [assumption|discriminate].
  - cbn. split; [assumption|discriminate].
  - cbn. split; [assumption|discriminate].
  - pose proof (refreshState_wellFormed now sv Hwf) as [H1 H2].
    destruct (tick now sv) as [sv' outcome]. cbn [fst snd] in *.
    split; [assumption|]. rewrite H2. discriminate.
Qed.

Lemma run_wellFormed (requests : list Request) (sv : Server) :
  wellFormed sv ->
  wellFormed (fst (runAll requests sv)) /\ neverThrew (snd (runAll requests sv)).
Proof.
  revert sv. induction requests as [|request rest IH]; intros sv Hwf; cbn [run].
  - split; [assumption|constructor].
  - pose proof (serve_wellFormed request sv Hwf) as [H1 H2].
    destruct (handle request sv) as [sv' result]. cbn [fst snd] in *.
    destruct (IH sv' H1) as [H3 H4].
    destruct (runAll rest sv') as [sv'' results]. cbn [fst snd] in *.
    split; [assumption|]. constructor; assumption.
Qed.

Lemma boot_wellFormed (fs : FileSystem) (datasetPath startedAt : string) (now : Clock) :
  wellFormed (start fs datasetPath startedAt now).
Proof.
  unfold boot. apply refreshState_wellFormed, initData_wellFormed,
    initialServer_wellFormed.
Qed.

(** X17.  From startup on, whatever the dataset and whatever uploads, reads
    and timer ticks follow, no tick ever raises: the first [refreshState]
    publishes a snapshot and so does every later one. *)
Theorem server_never_throws (fs : FileSystem) (datasetPath startedAt : string)
    (now : Clock) (requests : list Request) :
  (exists snapshot : Snapshot.t,
      snd (tick now (fst (reload fs datasetPath (initialServer datasetPath startedAt))))
      = Emitted snapshot)
  /\ neverThrew (snd (runAll requests (start fs datasetPath startedAt now))).
Proof.
  split.
  - eexists. apply refreshState_wellFormed, initData_wellFormed,
      initialServer_wellFormed.
  - apply run_wellFormed, boot_wellFormed.
Qed.

End Server.

Lemma summarizePlatform_name (rows : list ScoredRow.t) (platform : string) :
  PlatformMetric.name (summarizePlatform rows platform) = platform.
Proof. unfold summarizePlatform. destruct (_ =? _)%nat; reflexivity. Qed.

Lemma filter_length_le {A : Type} (p : A -> bool) (l : list A) :
  (length (List.filter p l) <= length l)%nat.
Proof. induction l as [|x l IH]; cbn; [lia|]. destruct (p x); cbn; lia. Qed.

Lemma buildAlerts_length (showNum : num -> string) (stamp : nat -> string)
    (platformMetrics : list PlatformMetric.t) (highRiskCount : nat) :
  (length (buildAlerts showNum stamp platformMetrics highRiskCount)
   <= length platformMetrics + 1)%nat.
Proof.
  unfold buildAlerts, sliceTo. rewrite length_take.
  pose proof (filter_length_le escalated platformMetrics).
  destruct (40 <? highRiskCount)%nat;
    rewrite ?length_app, ?length_imap; cbn [length]; lia.
Qed.

Lemma sliceLast_length_eq {A : Type} (k : nat) (l : list A) :
  length (sliceLast k l) = Nat.min k (length l).
Proof. unfold sliceLast. rewrite length_drop. lia. Qed.

Section ServerState.

Variable StringToNumber : string -> num.
Variables exp_approx sqrt_approx : Q -> Q.
Variable showNum : num -> string.
Variable resolve : string -> string.

Local Abbreviation tick := (refreshState showNum).
Local Abbreviation reload := (initData StringToNumber exp_approx sqrt_approx resolve).
Local Abbreviation upload :=
  (postUpload StringToNumber exp_approx sqrt_approx resolve).
Local Abbreviation handle :=
  (serve StringToNumber exp_approx sqrt_approx showNum resolve).
Local Abbreviation runAll :=
  (run StringToNumber exp_approx sqrt_approx showNum resolve).
Local Abbreviation start :=
  (boot StringToNumber exp_approx sqrt_approx showNum resolve).

(** An invariant of reloads and ticks that holds at the start holds after
    startup and any requests. *)
Lemma run_invariant (P : Server -> Prop) :
  (forall fs csvPath sv, P sv -> P (fst (reload fs csvPath sv))) ->
  (forall now sv, P sv -> P (fst (tick now sv))) ->
  forall (requests : list Request) (sv : Server), P sv -> P (fst (runAll requests sv)).
Proof.
  intros Hreload Htick requests.
  induction requests as [|request rest IH]; intros sv Hsv; cbn [run]; [exact Hsv|].
  assert (Hstep : P (fst (handle request sv))).
  { destruct request as [fs [file|]| | |now]; cbn [serve postUpload].
    - specialize (Hreload fs file sv Hsv).
      destruct (reload fs file sv) as [sv' ok]. destruct ok; exact Hreload.
    - exact Hsv.
    - exact Hsv.
    - exact Hsv.
    - specialize (Htick now sv Hsv). destruct (tick now sv). exact Htick. }
  destruct (handle request sv) as [sv' result]. cbn [fst] in Hstep.
  specialize (IH sv' Hstep). destruct (runAll rest sv') as [sv'' results]. exact IH.
Qed.

Lemma boot_invariant (P : Server -> Prop) :
  (forall fs csvPath sv, P sv -> P (fst (reload fs csvPath sv))) ->
  (forall now sv, P sv -> P (fst (tick now sv))) ->
  forall fs datasetPath startedAt now,
    P (initialServer datasetPath startedAt) ->
    P (start fs datasetPath startedAt now).
Proof. intros Hreload Htick fs datasetPath startedAt now H0. unfold boot. auto. Qed.

Lemma refreshState_infoConsistent (now : Clock) (sv : Server) :
  infoConsistent sv -> infoConsistent (fst (tick now sv)).
Proof.
  unfold infoConsistent, refreshState. destruct (nextBatch _ _ _) as [batch cursor'].
  destruct (allDefined _); [|exact (fun H => H)].
  destruct (last batch) as [[row|]|]; exact (fun H => H).
Qed.

Lemma initData_infoConsistent (fs : FileSystem) (csvPath : string) (sv : Server) :
  infoConsistent sv -> infoConsistent (fst (reload fs csvPath sv)).
Proof.
  unfold infoConsistent, initData. destruct (loadDataset _ _ _); [exact (fun H => H)|].
  intros _. split; reflexivity.
Qed.

(** X18.  After startup and any requests, the health reply is a 200 whose
    row count is the number of mapped rows and whose path is the path of the
    dataset in use: a failed reload never leaves the two out of step. *)
Theorem health_reports_dataset (fs : FileSystem) (datasetPath startedAt : string)
    (now : Clock) (requests : list Request) :
  let sv := fst (runAll requests (start fs datasetPath startedAt now)) in
  getHealth sv
  = mkResponse 200
      (HealthReply
         {| status := "ok";
            updatedAt := Snapshot.updateAt (state sv);
            datasetRows := length (mappedRows sv);
            datasetPath := currentDatasetPath sv;
            healthModelStats := Snapshot.modelStats (state sv) |}).
Proof.
  cbv zeta.
  assert (H : infoConsistent (fst (runAll requests (start fs datasetPath startedAt now)))).
  { apply (run_invariant infoConsistent);
      [apply initData_infoConsistent|apply refreshState_infoConsistent|].
    apply (boot_invariant infoConsistent);
      [apply initData_infoConsistent|apply refreshState_infoConsistent|].
    split; reflexivity. }
  destruct H as [Hrows Hpath]. unfold getHealth. rewrite Hrows, Hpath. reflexivity.
Qed.

Lemma initData_withinCaps (fs : FileSystem) (csvPath : string) (sv : Server) :
  withinCaps sv -> withinCaps (fst (reload fs csvPath sv)).
Proof.
  unfold initData. destruct (loadDataset _ _ _); [exact (fun H => H)|].
  intros _. unfold withinCaps. cbn. lia.
Qed.

Lemma refreshState_keeps_caps (now : Clock) (sv : Server) :
  withinCaps sv -> withinCaps (fst (tick now sv)).
Proof. intros (_ & Htrend & Hfeed). apply refreshState_withinCaps; assumption. Qed.

(** X19.  After startup and any interleaving of uploads, reads and ticks,
    the stream window holds at most 620 entries, the trend history at most
    24 and the live feed at most 30. *)
Theorem server_withinCaps (fs : FileSystem) (datasetPath startedAt : string)
    (now : Clock) (requests : list Request) :
  withinCaps (fst (runAll requests (start fs datasetPath startedAt now))).
Proof.
  apply (run_invariant withinCaps);
    [apply initData_withinCaps|apply refreshState_keeps_caps|].
  apply (boot_invariant withinCaps);
    [apply initData_withinCaps|apply refreshState_keeps_caps|].
  unfold withinCaps. cbn. lia.
Qed.

(** X20.  The snapshot a tick publishes is the new published state; its
    session count is the window length and the number of stream customers;
    it has one summary per platform, in platform order, and the three bands
    Low, Medium, High; its leaderboard has 14 entries or the whole window if
    that is smaller; its trend is the trend history; and it carries at most
    6 alerts, so the cap of 8 never cuts anything in a tick. *)
Theorem refreshState_snapshot_shape (now : Clock) (sv : Server) (snapshot : Snapshot.t) :
  snd (tick now sv) = Emitted snapshot ->
  state (fst (tick now sv)) = snapshot
  /\ activeSessions (Snapshot.kpis snapshot) = length (streamWindow (fst (tick now sv)))
  /\ length (Snapshot.streamCustomers snapshot) = activeSessions (Snapshot.kpis snapshot)
  /\ map PlatformMetric.name (Snapshot.platformMetrics snapshot) = platforms
  /\ map Bucket.name (Snapshot.riskDistribution snapshot) = ["Low"; "Medium"; "High"]%string
  /\ length (Snapshot.topRiskCustomers snapshot)
     = Nat.min 14 (activeSessions (Snapshot.kpis snapshot))
  /\ Snapshot.trend snapshot = trendWindow (fst (tick now sv))
  /\ (length (Snapshot.alerts snapshot) <= 6)%nat.
Proof.
  unfold refreshState. destruct (nextBatch _ _ _) as [batch cursor'].
  destruct (allDefined _) as [window|] eqn:Ew; [|discriminate].
  apply allDefined_Some in Ew.
  assert (Hshape : forall feed,
    let snap :=
      {| Snapshot.kpis :=
           mkKpis (length window)
             (if (0 <? length window)%nat
              then toFixed 2 (sumBy ScoredRow.churnRisk window / JsNum.ofNat (length window))%num
              else Fin 0)
             (countIf (fun row =>
                         (ScoredRow.churnRisk row >=?
                          match Snapshot.modelStats (state sv) with
                          | Some stats => threshold stats
                          | None => Fin 50
                          end)%num) window)
             (toFixed 2 (sumBy ScoredRow.minutes window))
             (if (0 <? length window)%nat
              then toFixed 2 (sumBy ScoredRow.serviceCalls window / JsNum.ofNat (length window))%num
              else Fin 0);
         Snapshot.platformMetrics := map (summarizePlatform window) platforms;
         Snapshot.riskDistribution := getRiskDistribution window;
         Snapshot.trend :=
           sliceLast 24
             (trendWindow sv
              ++ [{| TrendPoint.time := localeTime now;
                     TrendPoint.risk :=
                       if (0 <? length window)%nat
                       then toFixed 2 (sumBy ScoredRow.churnRisk window
                                       / JsNum.ofNat (length window))%num
                       else Fin 0;
                     TrendPoint.churners :=
                       countIf (fun row =>
                                  (ScoredRow.churnRisk row >=?
                                   match Snapshot.modelStats (state sv) with
                                   | Some stats => threshold stats
                                   | None => Fin 50
                                   end)%num) window;
                     TrendPoint.active := length window |}]);
         Snapshot.liveFeed := feed;
         Snapshot.topRiskCustomers :=
           map toTopRisk (sliceTo 14 (Array_sort byRisk window));
         Snapshot.alerts :=
           buildAlerts showNum (dateNow now) (map (summarizePlatform window) platforms)
                       (highUsers (getRiskDistribution window));
         Snapshot.modelStats := Snapshot.modelStats (state sv);
         Snapshot.states := Snapshot.states (state sv);
         Snapshot.platforms := Snapshot.platforms (state sv);
         Snapshot.streamCustomers := map toStreamCustomer window;
         Snapshot.updateAt := isoString now;
         Snapshot.datasetInfo := Snapshot.datasetInfo (state sv) |} in
    activeSessions (Snapshot.kpis snap) = length (map Some window)
    /\ length (Snapshot.streamCustomers snap) = activeSessions (Snapshot.kpis snap)
    /\ map PlatformMetric.name (Snapshot.platformMetrics snap) = platforms
    /\ map Bucket.name (Snapshot.riskDistribution snap) = ["Low"; "Medium"; "High"]%string
    /\ length (Snapshot.topRiskCustomers snap)
       = Nat.min 14 (activeSessions (Snapshot.kpis snap))
    /\ (length (Snapshot.alerts snap) <= 6)%nat).
  { intros feed. cbv zeta.
    cbn [Snapshot.kpis Snapshot.streamCustomers Snapshot.platformMetrics
         Snapshot.riskDistribution Snapshot.topRiskCustomers Snapshot.alerts
         activeSessions].
    split; [rewrite length_map; reflexivity|].
    split; [apply length_map|].
    split; [rewrite map_map; cbn [platforms map]; rewrite !summarizePlatform_name; reflexivity|].
    split; [reflexivity|].
    split.
    - unfold sliceTo. rewrite length_map, length_take.
      rewrite (Permutation_length (Array_sort_Permutation byRisk window)). reflexivity.
    - etransitivity; [apply buildAlerts_length|]. rewrite length_map. cbn. lia. }
  destruct (last batch) as [[row|]|]; cbn [fst snd state streamWindow trendWindow];
    try discriminate; intros [= <-]; rewrite Ew;
    repeat (split; [first [reflexivity | apply Hshape]|]); apply Hshape.
Qed.

Lemma ticks_mappedRows (clock : nat -> Clock) (n : nat) (sv : Server) :
  mappedRows (ticks showNum clock n sv) = mappedRows sv.
Proof.
  induction n as [|n IH]; [reflexivity|].
  cbn [ticks]. rewrite refreshState_mappedRows. exact IH.
Qed.

(** X21.  On a non-empty dataset each tick adds 45 entries to the stream
    window until it holds 620: after [n] ticks a window that started within
    the cap holds [min(620, start + 45 n)] entries. *)
Theorem ticks_fill_window (clock : nat -> Clock) (n : nat) (sv : Server) :
  mappedRows sv <> [] ->
  (length (streamWindow sv) <= 620)%nat ->
  length (streamWindow (ticks showNum clock n sv))
  = Nat.min 620 (length (streamWindow sv) + 45 * n).
Proof.
  intros Hne Hcap. induction n as [|n IH]; [cbn [ticks]; lia|].
  cbn [ticks]. rewrite refreshState_streamWindow, sliceLast_length_eq, length_app.
  rewrite nextBatch_length, ticks_mappedRows, IH.
  destruct (length (mappedRows sv) =? 0)%nat eqn:E.
  - apply Nat.eqb_eq in E. destruct (mappedRows sv); [contradiction|discriminate].
  - unfold batchSize. lia.
Qed.

(** X22.  An upload either succeeds, answering 200 with the number of rows
    now mapped and leaving the cursor at 0 and the window empty, or answers
    400 (no file) or 500 (the dataset could not be loaded) and changes no
    variable. *)
Theorem postUpload_outcomes (fs : FileSystem) (file : option string) (sv : Server) :
  let sv' := fst (upload fs file sv) in
  let response := snd (upload fs file sv) in
  (statusCode response = 200%nat
   /\ body response
      = UploadBody true "Dataset uploaded and model re-trained" (length (mappedRows sv'))
   /\ cursor sv' = 0%nat /\ streamWindow sv' = [] /\ trendWindow sv' = [])
  \/ (sv' = sv
      /\ ((file = None /\ response = mkResponse 400 (ErrorBody "No file uploaded"))
          \/ response = mkResponse 500 (ErrorBody "Failed to initialize dataset"))).
Proof.
  cbv zeta. unfold postUpload. destruct file as [path|].
  - unfold initData. destruct (loadDataset _ _ _); cbn.
    + right. auto.
    + left. repeat split.
  - right. cbn. auto.
Qed.

End ServerState.

(** *** Scores from startup on *)

Lemma sumBy_between {A : Type} (f : A -> num) (B : Q) (l : list A) :
  (B * inject_Z (Z.of_nat (length l)) <= 10000000000000000000000)%Q ->
  Forall (fun x => between 0 B (f x)) l ->
  exists s : Q, sumBy f l = Fin s /\ (0 <= s)%Q
                /\ (s <= B * inject_Z (Z.of_nat (length l)))%Q.
Proof.
  unfold sumBy. intros Hcap Hl.
  assert (H : forall a : Q,
             (0 <= a)%Q ->
             (a + B * inject_Z (Z.of_nat (length l)) <= 10000000000000000000000)%Q ->
             exists s : Q,
               foldl (fun acc cur => (acc + f cur)%num) (Fin a) l = Fin s
               /\ (a <= s)%Q /\ (s <= a + B * inject_Z (Z.of_nat (length l)))%Q).
  { clear Hcap. induction Hl as [|x l (q & Hq & Hq0 & HqB) _ IH]; intros a Ha Hcap.
    - exists a. split; [reflexivity|]. cbn [length].
      change (inject_Z (Z.of_nat 0)) with 0%Q. split; lra.
    - cbn [length] in Hcap. rewrite Nat2Z.inj_succ in Hcap. unfold Z.succ in Hcap.
      rewrite inject_Z_plus in Hcap. change (inject_Z 1) with 1%Q in Hcap.
      pose proof (ofNat_nonneg (length l)) as Hlen.
      assert (0 <= B)%Q by lra.
      assert (0 <= B * inject_Z (Z.of_nat (length l)))%Q by (apply Qmult_le_0_compat; lra).
      cbn [foldl]. rewrite Hq. cbn [add]. rewrite fin_small by lra.
      destruct (IH (a + q)%Q) as (s & Hs & Hs0 & HsB); [lra|lra|]. exists s.
      split; [exact Hs|]. split; [lra|].
      cbn [length]. rewrite Nat2Z.inj_succ. unfold Z.succ.
      rewrite inject_Z_plus. change (inject_Z 1) with 1%Q. lra. }
  destruct (H 0%Q) as (s & Hs & Hs0 & HsB); [lra|lra|].
  exists s. repeat split; [exact Hs|lra|lra].
Qed.

Section ScoresInRange.

Variable StringToNumber : string -> num.
Variables exp_approx sqrt_approx : Q -> Q.
Variable showNum : num -> string.
Variable resolve : string -> string.
Hypothesis exp_approx_nonneg : forall q : Q, (0 <= exp_approx q)%Q.

Local Abbreviation score := (scoreRow StringToNumber exp_approx).
Local Abbreviation tick := (refreshState showNum).
Local Abbreviation reload := (initData StringToNumber exp_approx sqrt_approx resolve).
Local Abbreviation runAll :=
  (run StringToNumber exp_approx sqrt_approx showNum resolve).
Local Abbreviation start :=
  (boot StringToNumber exp_approx sqrt_approx showNum resolve).

Lemma scoreRow_sound (row : ModelRow.t) (logisticModel : TrainedModel.t) :
  isNumber (ModelRow.serviceCalls row) -> scoreSound (score row logisticModel).
Proof.
  intros Hcalls. unfold scoreSound.
  destruct (logitOf StringToNumber row logisticModel) as [| |z|] eqn:Ez.
  - split.
    + unfold scoreRow. cbn [ScoredRow.bufferingRate].
      apply (toFixed_between 2 6); [lia|].
      assert (Hc : between 0 1 (clamp01 (ModelRow.serviceCalls row / Fin 8)%num)).
      { apply (clamp_between 0 1); [lra|]. apply div_number_finite; [exact Hcalls|lra]. }
      destruct Hc as (c & -> & Hc0 & Hc1).
      cbn [mul]. rewrite fin_small by lra.
      eexists. split; [reflexivity|]. change (inject_Z 6) with 6%Q. lra.
    + right. unfold logitOf in Ez. cbv zeta in Ez. unfold scoreRow.
      cbn [ScoredRow.churnRisk ScoredRow.satisfaction]. rewrite Ez. split; reflexivity.
  - destruct (ranges_of_logit StringToNumber exp_approx exp_approx_nonneg row logisticModel)
      as (Hrisk & Hsat & Hbuf & _); [rewrite Ez; discriminate|exact Hcalls|].
    split; [exact Hbuf|]. left. split; assumption.
  - destruct (ranges_of_logit StringToNumber exp_approx exp_approx_nonneg row logisticModel)
      as (Hrisk & Hsat & Hbuf & _); [rewrite Ez; discriminate|exact Hcalls|].
    split; [exact Hbuf|]. left. split; assumption.
  - destruct (ranges_of_logit StringToNumber exp_approx exp_approx_nonneg row logisticModel)
      as (Hrisk & Hsat & Hbuf & _); [rewrite Ez; discriminate|exact Hcalls|].
    split; [exact Hbuf|]. left. split; assumption.
Qed.

Lemma initData_sound (fs : FileSystem) (csvPath : string) (sv : Server) :
  Forall scoreSound (mappedRows sv) ->
  Forall scoreSound (mappedRows (fst (reload fs csvPath sv))).
Proof.
  intros Hsv. unfold initData. destruct (loadDataset _ _ _) as [|rawRows]; [exact Hsv|].
  cbn [fst mappedRows]. apply Forall_map, Forall_imap. intros idx row _.
  apply scoreRow_sound, toModelRow_serviceCalls_number.
Qed.

Lemma refreshState_sound (now : Clock) (sv : Server) :
  Forall scoreSound (mappedRows sv) -> Forall scoreSound (mappedRows (fst (tick now sv))).
Proof. rewrite refreshState_mappedRows. exact (fun H => H). Qed.

(** X23.  After startup and any requests, every mapped row has its
    buffering rate in [0, 6], and its risk and satisfaction either in
    [0, 100] and [20, 99] or both [NaN], whatever datasets were loaded.
    (They are [NaN] when the linear score of the row is, as under a model
    trained on cells large enough for a column sum to overflow.) *)
Theorem server_scores_sound (fs : FileSystem) (datasetPath startedAt : string)
    (now : Clock) (requests : list Request) :
  Forall scoreSound (mappedRows (fst (runAll requests (start fs datasetPath startedAt now)))).
Proof.
  apply (run_invariant _ _ _ _ _ (fun sv => Forall scoreSound (mappedRows sv)));
    [intros; apply initData_sound; assumption
    |intros; apply refreshState_sound; assumption|].
  apply (boot_invariant _ _ _ _ _ (fun sv => Forall scoreSound (mappedRows sv)));
    [intros; apply initData_sound; assumption
    |intros; apply refreshState_sound; assumption|].
  constructor.
Qed.

End ScoresInRange.

(** *** What a tick publishes *)

Section Published.

Variable showNum : num -> string.

Local Abbreviation tick := (refreshState showNum).

(** The parts of a published snapshot, in terms of the rows of the window. *)
Lemma refreshState_emitted (now : Clock) (sv : Server) (snapshot : Snapshot.t) :
  snd (tick now sv) = Emitted snapshot ->
  exists window : list ScoredRow.t,
    streamWindow (fst (tick now sv)) = map Some window
    /\ activeSessions (Snapshot.kpis snapshot) = length window
    /\ avgChurnRisk (Snapshot.kpis snapshot)
       = (if (0 <? length window)%nat
          then toFixed 2 (sumBy ScoredRow.churnRisk window / JsNum.ofNat (length window))%num
          else Fin 0)
    /\ Snapshot.riskDistribution snapshot = getRiskDistribution window
    /\ Snapshot.topRiskCustomers snapshot
       = map toTopRisk (sliceTo 14 (Array_sort byRisk window)).
Proof.
  unfold refreshState. destruct (nextBatch _ _ _) as [batch cursor'].
  destruct (allDefined _) as [window|] eqn:Ew; [|discriminate].
  apply allDefined_Some in Ew. rewrite Ew.
  destruct (last batch) as [[row|]|]; cbn [fst snd streamWindow];
    try discriminate; intros [= <-]; exists window; repeat split.
Qed.

(** X24.  When the rows of the window a tick leaves have their risks in
    [0, 100], the published band counts add up to the published session
    count and the published average risk lies in [0, 100]. *)
Theorem refreshState_consistent_counts (now : Clock) (sv : Server)
    (snapshot : Snapshot.t) :
  snd (tick now sv) = Emitted snapshot ->
  Forall (fun entry => exists row, entry = Some row
                                   /\ between 0 100 (ScoredRow.churnRisk row))
         (streamWindow (fst (tick now sv))) ->
  sum_list (map Bucket.users (Snapshot.riskDistribution snapshot))
  = activeSessions (Snapshot.kpis snapshot)
  /\ between 0 100 (avgChurnRisk (Snapshot.kpis snapshot)).
Proof.
  intros Hemit Hwin.
  destruct (refreshState_emitted now sv snapshot Hemit)
    as (window & Hw & Hactive & Havg & Hdist & _).
  rewrite Hw in Hwin.
  assert (Hrows : Forall (fun row => between 0 100 (ScoredRow.churnRisk row)) window).
  { apply Forall_forall. intros row Hrow. rewrite Forall_forall in Hwin.
    destruct (Hwin (Some row)) as (row' & [= <-] & H); [|exact H].
    change (map ?f ?l) with (f <$> l). apply list_elem_of_fmap. eauto. }
  rewrite Hactive, Havg, Hdist. split.
  - fold (bucketCounts window). rewrite bucketCounts_eq.
    cbn [sum_list sum_list_with]. unfold id.
    clear -Hrows. induction Hrows as [|row rows Hrow _ IH]; [reflexivity|].
    rewrite !countIf_cons. pose proof (one_band row Hrow). cbn [length]. lia.
  - destruct (0 <? length window)%nat eqn:E; [|exists 0%Q; repeat split; lra].
    apply Nat.ltb_lt in E.
    assert (Hcap : (length window <= 620)%nat).
    { pose proof (f_equal length Hw) as Hlen.
      rewrite (refreshState_streamWindow showNum), length_map in Hlen.
      rewrite <- Hlen. apply sliceLast_length. }
    assert (HcapQ : (inject_Z (Z.of_nat (length window)) <= 620)%Q)
      by (change 620%Q with (inject_Z 620); rewrite <- Zle_Qle; lia).
    destruct (sumBy_between ScoredRow.churnRisk 100 window) as (s & -> & Hs0 & HsB);
      [lra|exact Hrows|].
    apply (toFixed_between 2 100); [lia|].
    assert (Hn : (0 < inject_Z (Z.of_nat (length window)))%Q)
      by (rewrite <- (Zlt_Qlt 0); lia).
    unfold JsNum.ofNat. cbn [div].
    destruct (Qeq_bool _ 0) eqn:E0; Qbools; [lra|].
    assert (0 <= s / inject_Z (Z.of_nat (length window)))%Q
      by (apply Qle_shift_div_l; lra).
    assert (s / inject_Z (Z.of_nat (length window)) <= 100)%Q
      by (apply Qle_shift_div_r; lra).
    rewrite fin_small by lra.
    eexists. split; [reflexivity|]. change (inject_Z 100) with 100%Q. split; assumption.
Qed.

Lemma riskAt_number (window : list ScoredRow.t) (i : nat) :
  Forall (fun row => isNumber (ScoredRow.churnRisk row)) window ->
  (i < length window)%nat -> isNumber (riskAt window i).
Proof.
  intros Hw Hi. unfold riskAt.
  destruct (lookup_lt_is_Some_2 _ _ Hi) as [row Hrow]. rewrite Hrow.
  exact (Forall_lookup_1 _ _ _ _ Hw Hrow).
Qed.

Lemma lookup_all (window : list ScoredRow.t) :
  map Some window = map (fun i => window !! i) (seq 0 (length window)).
Proof.
  apply list_eq. intros i. change (map ?f ?l) with (f <$> l).
  rewrite !list_lookup_fmap.
  destruct (decide (i < length window)%nat) as [Hi|Hi].
  - rewrite lookup_seq_lt by exact Hi. cbn.
    destruct (lookup_lt_is_Some_2 _ _ Hi) as [row ->]. reflexivity.
  - rewrite lookup_seq_ge by lia. rewrite lookup_ge_None_2 by lia. reflexivity.
Qed.

(** X25.  When the risks of the window are numbers, the leaderboard a tick
    publishes is the first 14 rows of the ranking of the window by
    decreasing risk, rows of equal risk in window order. *)
Theorem refreshState_leaderboard (now : Clock) (sv : Server) (snapshot : Snapshot.t)
    (window : list ScoredRow.t) :
  snd (tick now sv) = Emitted snapshot ->
  streamWindow (fst (tick now sv)) = map Some window ->
  Forall (fun row => isNumber (ScoredRow.churnRisk row)) window ->
  exists ranking : list nat,
    Permutation ranking (seq 0 (length window))
    /\ StronglySorted (outranks (riskAt window)) ranking
    /\ map Some (Snapshot.topRiskCustomers snapshot)
       = map (fun i => toTopRisk <$> window !! i) (take 14 ranking).
Proof.
  intros Hemit Hwin Hnum.
  destruct (refreshState_emitted now sv snapshot Hemit) as (window' & Hw & _ & _ & _ & Htop).
  assert (window' = window) as ->.
  { rewrite Hw in Hwin. clear -Hwin. revert window Hwin.
    induction window' as [|r w IH]; intros [|r' w'] H; try discriminate; [reflexivity|].
    injection H as -> H. f_equal. apply IH. exact H. }
  set (ranking := Array_sort (fun i j => (riskAt window j - riskAt window i)%num)
                             (seq 0 (length window))).
  exists ranking. split; [apply Array_sort_Permutation|]. split.
  - apply Array_sort_ranked; [apply seq_increasing|].
    apply Forall_forall. intros i Hi. apply elem_of_seq in Hi.
    apply riskAt_number; [exact Hnum|lia].
  - rewrite Htop. unfold sliceTo.
    assert (Hsorted : map Some (Array_sort byRisk window)
                      = map (fun i => window !! i) ranking).
    { pose proof (Array_sort_map (@Some ScoredRow.t)
                    (fun a b => (match b with Some r => ScoredRow.churnRisk r | None => NaN end
                                 - match a with Some r => ScoredRow.churnRisk r | None => NaN end)%num)
                    window) as H1.
      cbn beta iota in H1. change (fun a b : ScoredRow.t =>
                 (ScoredRow.churnRisk b - ScoredRow.churnRisk a)%num) with byRisk in H1.
      rewrite H1, lookup_all.
      rewrite <- (Array_sort_map (fun i => window !! i)). reflexivity. }
    change (map ?f ?l) with (f <$> l) in *.
    rewrite <- list_fmap_compose.
    change (Some ∘ toTopRisk) with (fmap (M:=option) toTopRisk ∘ Some).
    rewrite list_fmap_compose, fmap_take, Hsorted, <- fmap_take, <- list_fmap_compose.
    reflexivity.
Qed.

(** X26.  On a well-formed state with a non-empty dataset, the entry a
    tick puts at the head of the live feed describes the last row of the
    batch, the row 44 places after the cursor in round-robin order, under an
    id made of the clock reading and the new cursor. *)
Theorem refreshState_pulse (now : Clock) (sv : Server) :
  wellFormed sv -> mappedRows sv <> [] ->
  exists row : ScoredRow.t,
    roundRobin (mappedRows sv) (cursor sv) 44 = Some row
    /\ head (Snapshot.liveFeed (state (fst (tick now sv))))
       = Some (toPulse (getTime now +:+ "-"
                        +:+ JsStr.ofNat ((cursor sv + 45) mod length (mappedRows sv)))
                       row).
Proof.
  intros Hwf Hne.
  pose proof (nextBatch_wellFormed sv Hwf) as [Hbatch _].
  destruct Hwf as [Hcur Hwin]. specialize (Hcur Hne).
  assert (Hwin' : Forall (fun entry => exists row, entry = Some row /\ row ∈ mappedRows sv)
                         (sliceLast 620 (streamWindow sv
                            ++ fst (nextBatch batchSize (mappedRows sv) (cursor sv)))))
    by (apply sliceLast_Forall, Forall_app; split; assumption).
  unfold refreshState. rewrite nextBatch_spec in * by assumption. cbn [fst snd] in *.
  destruct (allDefined_Forall _ _ Hwin') as (window & -> & _ & _).
  change (seq 0 batchSize) with (seq 0 44 ++ [44%nat]).
  rewrite map_app. cbn [map]. rewrite last_snoc.
  assert (Hlast : exists row, roundRobin (mappedRows sv) (cursor sv) 44 = Some row).
  { unfold roundRobin. apply lookup_lt_is_Some_2, Nat.mod_upper_bound.
    destruct (mappedRows sv); [contradiction|discriminate]. }
  destruct Hlast as [row Hrow]. exists row. split; [exact Hrow|].
  rewrite Hrow. reflexivity.
Qed.

End Published.

(** *** The list of states *)

Lemma distinct_spec (l seen : list string) :
  NoDup (distinct seen l)
  /\ (forall x : string, x ∈ distinct seen l <-> x ∈ l /\ x ∉ seen).
Proof.
  revert seen. induction l as [|x l IH]; intros seen; cbn [distinct].
  - split; [constructor|]. intros y. rewrite elem_of_nil. tauto.
  - destruct (bool_decide (x ∈ seen)) eqn:E.
    + apply bool_decide_eq_true in E. destruct (IH seen) as [Hnd Hin].
      split; [exact Hnd|]. intros y. rewrite Hin, elem_of_cons.
      split; [tauto|]. intros [[->|Hy] Hs]; [contradiction|tauto].
    + apply bool_decide_eq_false in E. destruct (IH (x :: seen)) as [Hnd Hin].
      split.
      * constructor; [|exact Hnd]. rewrite Hin, elem_of_cons. tauto.
      * intros y. rewrite !elem_of_cons, Hin, elem_of_cons.
        destruct (decide (y = x)) as [->|Hne]; [tauto|]. tauto.
Qed.

Section States.

Variable StringToNumber : string -> num.
Variables exp_approx sqrt_approx : Q -> Q.
Variable resolve : string -> string.

Local Abbreviation reload :=
  (initData StringToNumber exp_approx sqrt_approx resolve).

(** X27.  After a successful reload the published list of states names
    every state of the mapped rows exactly once, and nothing else. *)
Theorem initData_states (fs : FileSystem) (csvPath : string) (sv : Server)
    (rawRows : list RawRecord) :
  loadDataset resolve fs csvPath = inr rawRows ->
  NoDup (Snapshot.states (state (fst (reload fs csvPath sv))))
  /\ (forall s : string,
        s ∈ Snapshot.states (state (fst (reload fs csvPath sv)))
        <-> exists row : ScoredRow.t,
              row ∈ mappedRows (fst (reload fs csvPath sv))
              /\ ScoredRow.state row = s).
Proof.
  intros Hload. unfold initData. rewrite Hload.
  cbn [fst state mappedRows Snapshot.states].
  set (mapped := map _ (imap _ rawRows)).
  destruct (distinct_spec (map ScoredRow.state mapped) []) as [Hnd Hin].
  pose proof (Array_sort_Permutation compareStrings
                (distinct [] (map ScoredRow.state mapped))) as Hperm.
  split.
  - rewrite Hperm. exact Hnd.
  - intros s. rewrite Hperm, Hin.
    change (map ?f ?l) with (f <$> l). rewrite list_elem_of_fmap, elem_of_nil.
    split.
    + intros [(row & -> & Hrow) _]. eauto.
    + intros (row & Hrow & <-). split; [eauto|tauto].
Qed.

End States.

(** ** The further properties on the sample inputs *)

Lemma sample_loaded_wellFormed : wellFormed Sample.loaded.
Proof. split; [intros _; cbn; lia|constructor]. Defined.

(** X6 on the two sample rows. *)
Lemma train_means_numbers_sample :
  [Sample.rowKS; Sample.rowOH] <> []
  /\ Forall isNumber
       (TrainedModel.means
          (trainLogisticRegression Builtins.decimalToNumber Builtins.exp_dyadic
             Builtins.sqrt_floor [Sample.rowKS; Sample.rowOH] 650
             (Fin (7 # 100)) (Fin (7 # 10000)))).
Proof.
  assert (Hne : [Sample.rowKS; Sample.rowOH] <> []) by discriminate.
  split; [exact Hne|].
  apply (train_means_numbers Builtins.decimalToNumber Builtins.exp_dyadic
           Builtins.sqrt_floor). exact Hne.
Defined.


(** X11 on a window of rows that are all predicted correctly. *)
Lemma evaluateModel_all_correct_sample :
  exists q : Q,
    accuracy (evaluateModel [Sample.scoredKS; Sample.scoredKS]) = Fin q /\ (q == 100)%Q.
Proof.
  apply evaluateModel_all_correct.
  - discriminate.
  - repeat constructor; vm_compute; reflexivity.
Defined.

(** X12 on a line of four cells. *)
Lemma parseCsvLine_joinFields_sample :
  parseCsvLine (joinFields ["KS"; " 415 "; "382-4657"; "False"]%string)
  = map trim ["KS"; " 415 "; "382-4657"; "False"]%string.
Proof.
  apply parseCsvLine_joinFields; [discriminate|].
  unfold plainField. cbn. repeat constructor; discriminate.
Defined.

(** X13 on a cell holding a comma. *)
Lemma parseCsvLine_quoted_sample :
  parseCsvLine (quoted " Doe, Jane ") = [trim " Doe, Jane "].
Proof.
  apply parseCsvLine_quoted. unfold quoteFree. cbn. repeat constructor; discriminate.
Defined.

(** X14 on the small dataset, whose lines are shorter and longer than the
    header. *)
Lemma loadDataset_columns_sample :
  exists records : list RawRecord,
    loadDataset id Sample.files "data.csv" = inr records
    /\ length records = 3%nat
    /\ Forall (fun record : RawRecord =>
                 forall k : string,
                   is_Some (record !! k)
                   <-> k ∈ ["state"; "area code"; "total day minutes"; "churn"]%string
                       /\ k <> "__proto__"%string)
              records.
Proof.
  refine (loadDataset_columns id Sample.files "data.csv" _
            "state,area code,total day minutes,churn"
            ["KS,415,265.1,False"; "OH,415"; "NJ,408,243.4,True,extra"]%string _ _);
    reflexivity.
Defined.

(** A header cell [__proto__] names no column of the records. *)
Example loadDataset_proto_header :
  loadDataset id Sample.files "proto.csv"
  = inr [ {[ "state"%string := "KS"%string; "churn"%string := "False"%string ]} ].
Proof. vm_compute. reflexivity. Qed.

(** X15 on a file of blanks. *)
Lemma initData_blank_dataset_sample :
  initData Builtins.decimalToNumber Builtins.exp_dyadic Builtins.sqrt_floor id
           Sample.files "blank.csv" Sample.loaded
  = (Sample.loaded, false).
Proof.
  apply initData_blank_dataset. right. eexists. split; [reflexivity|].
  vm_compute. reflexivity.
Defined.

(** X16 on a file holding a header line only. *)
Lemma initData_no_rows_sample :
  loadDataset id Sample.files "header.csv" = inr []
  /\ snd (initData Builtins.decimalToNumber Builtins.exp_dyadic Builtins.sqrt_floor id
                   Sample.files "header.csv" Sample.loaded) = true
  /\ mappedRows (fst (initData Builtins.decimalToNumber Builtins.exp_dyadic
                               Builtins.sqrt_floor id Sample.files "header.csv"
                               Sample.loaded)) = [].
Proof.
  assert (Hload : loadDataset id Sample.files "header.csv" = inr [])
    by (vm_compute; reflexivity).
  split; [exact Hload|].
  destruct (initData_no_rows Builtins.decimalToNumber Builtins.exp_dyadic
              Builtins.sqrt_floor id Sample.files "header.csv" Sample.loaded Hload)
    as (Hok & Hrows & _).
  split; assumption.
Defined.

(** The first tick from the loaded sample state publishes a snapshot. *)
Lemma sample_tick_emits :
  snd (refreshState Builtins.showInteger (Sample.clock 0) Sample.loaded)
  = Emitted (state (fst (refreshState Builtins.showInteger (Sample.clock 0) Sample.loaded))).
Proof. apply refreshState_wellFormed, sample_loaded_wellFormed. Defined.

(** X20 on the first tick from the loaded sample state. *)
Lemma refreshState_snapshot_shape_sample :
  let after := fst (refreshState Builtins.showInteger (Sample.clock 0) Sample.loaded) in
  activeSessions (Snapshot.kpis (state after)) = length (streamWindow after)
  /\ length (Snapshot.topRiskCustomers (state after))
     = Nat.min 14 (activeSessions (Snapshot.kpis (state after)))
  /\ (length (Snapshot.alerts (state after)) <= 6)%nat.
Proof.
  cbv zeta.
  destruct (refreshState_snapshot_shape Builtins.showInteger (Sample.clock 0)
              Sample.loaded _ sample_tick_emits)
    as (_ & H1 & _ & _ & _ & H2 & _ & H3).
  split; [exact H1|]. split; [exact H2|exact H3].
Defined.

(** X21 on twenty ticks from the loaded sample state. *)
Lemma ticks_fill_window_sample :
  length (streamWindow (ticks Builtins.showInteger Sample.clock 20 Sample.loaded))
  = 620%nat.
Proof.
  exact (ticks_fill_window Builtins.showInteger Sample.clock 20 Sample.loaded
           ltac:(discriminate) ltac:(cbn; lia)).
Defined.

(** X23 on a startup from the small dataset followed by the sample
    requests. *)
Lemma server_scores_sound_sample :
  Forall scoreSound
    (mappedRows
       (fst (run Builtins.decimalToNumber Builtins.exp_dyadic Builtins.sqrt_floor
                 Builtins.showInteger id Sample.requests
                 (boot Builtins.decimalToNumber Builtins.exp_dyadic Builtins.sqrt_floor
                       Builtins.showInteger id Sample.files "data.csv"
                       "2026-01-01T12:00:00.000Z" (Sample.clock 0))))).
Proof.
  apply (server_scores_sound Builtins.decimalToNumber Builtins.exp_dyadic
           Builtins.sqrt_floor Builtins.showInteger id exp_dyadic_nonneg).
Defined.

(** The rows of the sample dataset have their risks in [0, 100]. *)
Lemma sample_risks (row : ScoredRow.t) :
  row ∈ mappedRows Sample.loaded -> between 0 100 (ScoredRow.churnRisk row).
Proof.
  intros Hrow. cbn in Hrow.
  apply elem_of_cons in Hrow as [->|Hrow];
    [|apply elem_of_cons in Hrow as [->|Hrow]; [|apply elem_of_nil in Hrow; contradiction]];
    (eexists; split; [vm_compute; reflexivity|]; split; vm_compute; discriminate).
Defined.

Lemma sample_window_risks :
  Forall (fun entry => exists row, entry = Some row
                                   /\ between 0 100 (ScoredRow.churnRisk row))
         (streamWindow (fst (refreshState Builtins.showInteger (Sample.clock 0)
                                          Sample.loaded))).
Proof.
  destruct (refreshState_wellFormed Builtins.showInteger (Sample.clock 0) Sample.loaded
              sample_loaded_wellFormed) as [[_ Hwin] _].
  eapply Forall_impl; [exact Hwin|].
  intros entry (row & -> & Hrow). exists row. split; [reflexivity|].
  apply sample_risks. rewrite refreshState_mappedRows in Hrow. exact Hrow.
Defined.

(** X24 on the first tick from the loaded sample state. *)
Lemma refreshState_consistent_counts_sample :
  let snapshot :=
    state (fst (refreshState Builtins.showInteger (Sample.clock 0) Sample.loaded)) in
  sum_list (map Bucket.users (Snapshot.riskDistribution snapshot))
  = activeSessions (Snapshot.kpis snapshot)
  /\ between 0 100 (avgChurnRisk (Snapshot.kpis snapshot)).
Proof.
  exact (refreshState_consistent_counts Builtins.showInteger (Sample.clock 0)
           Sample.loaded _ sample_tick_emits sample_window_risks).
Defined.

(** X25 on the first tick from the loaded sample state. *)
Lemma refreshState_leaderboard_sample :
  exists window : list ScoredRow.t,
    streamWindow (fst (refreshState Builtins.showInteger (Sample.clock 0) Sample.loaded))
    = map Some window
    /\ exists ranking : list nat,
         Permutation ranking (seq 0 (length window))
         /\ StronglySorted (outranks (riskAt window)) ranking
         /\ map Some (Snapshot.topRiskCustomers
                        (state (fst (refreshState Builtins.showInteger (Sample.clock 0)
                                                  Sample.loaded))))
            = map (fun i => toTopRisk <$> window !! i) (take 14 ranking).
Proof.
  destruct (allDefined_Forall _ _ sample_window_risks) as (window & _ & Hw & Hrisks).
  exists window. split; [exact Hw|].
  apply (refreshState_leaderboard Builtins.showInteger (Sample.clock 0) Sample.loaded
           _ window sample_tick_emits Hw).
  eapply Forall_impl; [exact Hrisks|].
  intros row (q & Hq & _). rewrite Hq. discriminate.
Defined.

(** X26 on the first tick from the loaded sample state. *)
Lemma refreshState_pulse_sample :
  exists row : ScoredRow.t,
    roundRobin (mappedRows Sample.loaded) (cursor Sample.loaded) 44 = Some row
    /\ head (Snapshot.liveFeed
               (state (fst (refreshState Builtins.showInteger (Sample.clock 0)
                                         Sample.loaded))))
       = Some (toPulse (getTime (Sample.clock 0) +:+ "-"
                        +:+ JsStr.ofNat ((cursor Sample.loaded + 45)
                                         mod length (mappedRows Sample.loaded)))
                       row).
Proof.
  apply refreshState_pulse; [exact sample_loaded_wellFormed|discriminate].
Defined.

(** X27 on a reload from the small dataset. *)
Lemma initData_states_sample :
  exists rawRows : list RawRecord,
    loadDataset id Sample.files "data.csv" = inr rawRows
    /\ NoDup (Snapshot.states
                (state (fst (initData Builtins.decimalToNumber Builtins.exp_dyadic
                                      Builtins.sqrt_floor id Sample.files "data.csv"
                                      Sample.initial)))).
Proof.
  eexists. split; [vm_compute; reflexivity|].
  eapply (initData_states Builtins.decimalToNumber Builtins.exp_dyadic
            Builtins.sqrt_floor id Sample.files "data.csv" Sample.initial).
  vm_compute. reflexivity.
Defined.
